(** * QFlex theme: the metaobject / metafield definition provisioner

    A shallow embedding of [scripts/create_meta_definitions.mjs] and the
    properties of its create-or-ignore run.

    The script talks to three things outside itself: the process environment,
    the console, and the Shopify Admin GraphQL endpoint reached through
    [fetch].  A script is embedded as a finite tree of those interactions
    ([prog]); running a tree against a remote endpoint gives the ordered
    trace of what the process did, how it ended, and the endpoint's state. *)

From Stdlib Require Import List Bool NArith ZArith String Ascii Lia.
From Stdlib Require Import DecimalString.
Import ListNotations.

Set Warnings "-register-all".

Local Open Scope N_scope.
Local Open Scope list_scope.

(* ================================================================== *)
(** ** JavaScript strings *)

(** A JavaScript string is a sequence of UTF-16 code units. *)
Definition jsstring : Type := list N.

(** Program text written in this file as a Rocq string literal. *)
Definition js (s : string) : jsstring :=
  map N_of_ascii (list_ascii_of_string s).

Definition jsstring_eqb (a b : jsstring) : bool :=
  if list_eq_dec N.eq_dec a b then true else false.

(** [Number.prototype.toString] on a non-negative integer below 10^21. *)
Definition N_to_js (n : N) : jsstring :=
  js (NilZero.string_of_uint (N.to_uint n)).

(** [Number.prototype.toString] on an integer. *)
Definition Z_to_js (z : Z) : jsstring :=
  match z with
  | Z0 => js "0"
  | Zpos p => N_to_js (Npos p)
  | Zneg p => js "-" ++ N_to_js (Npos p)
  end.

(** [Array.prototype.join] on an array of strings. *)
Fixpoint join (sep : jsstring) (parts : list jsstring) : jsstring :=
  match parts with
  | [] => []
  | [p] => p
  | p :: rest => p ++ sep ++ join sep rest
  end.

(* ================================================================== *)
(** ** Regular expressions

    The two patterns of the script are sequences of literal characters and
    one [.*]; both carry the [i] flag and none carries [g] or [y], so
    [test] is stateless and searches from every start position. *)

Module RegExp.

Inductive atom : Type :=
| Chr (c : N)      (* a pattern character *)
| Dot.             (* [.] *)

Inductive node : Type :=
| One (a : atom)   (* [a]  *)
| Many (a : atom). (* [a*] *)

Definition regex : Type := list node.

(** LineTerminator: LF, CR, LS, PS. *)
Definition is_line_terminator (c : N) : bool :=
  (c =? 10) || (c =? 13) || (c =? 8232) || (c =? 8233).

(** Canonicalize under the [i] flag without [u].  A code unit of 128 or
    more is never mapped to a code unit below 128, and every pattern
    character of this script is below 128, so only the mapping of
    [a]..[z] decides a comparison; other code units are left as they
    are. *)
Definition canonicalize (c : N) : N :=
  if (97 <=? c) && (c <=? 122) then c - 32 else c.

Definition atom_matches (a : atom) (c : N) : bool :=
  match a with
  | Chr p => canonicalize c =? canonicalize p
  | Dot => negb (is_line_terminator c)
  end.

(** Does [r] match a prefix of the input?  ([a*] tries the shortest
    repetition first; for [test] only the existence of a match counts.) *)
Fixpoint match_here (r : regex) : jsstring -> bool :=
  match r with
  | [] => fun _ => true
  | One a :: r' =>
      fun s =>
        match s with
        | c :: s' => atom_matches a c && match_here r' s'
        | [] => false
        end
  | Many a :: r' =>
      fix star (s : jsstring) : bool :=
        match_here r' s ||
        match s with
        | c :: s' => atom_matches a c && star s'
        | [] => false
        end
  end.

(** [RegExp.prototype.test] on a string. *)
Fixpoint test (r : regex) (s : jsstring) : bool :=
  match_here r s ||
  match s with
  | _ :: s' => test r s'
  | [] => false
  end.

Definition chars (cs : jsstring) : regex := map (fun c => One (Chr c)) cs.

Definition lit (s : string) : regex := chars (js s).

(** Two strings are the same up to the case of their letters. *)
Definition same_letters (t p : jsstring) : Prop :=
  map canonicalize t = map canonicalize p.

(** A string without a line terminator. *)
Definition no_line_break (gap : jsstring) : Prop :=
  forallb (fun c => negb (is_line_terminator c)) gap = true.

End RegExp.

(** [/type.*already exists/i] *)
Definition metaobject_dupe_re : RegExp.regex :=
  RegExp.lit "type" ++ [RegExp.Many RegExp.Dot] ++ RegExp.lit "already exists".

(** [/definition.*already exists/i] *)
Definition metafield_dupe_re : RegExp.regex :=
  RegExp.lit "definition" ++ [RegExp.Many RegExp.Dot] ++ RegExp.lit "already exists".

(* ================================================================== *)
(** ** Values of a parsed JSON response *)

(** What [res.json()] can yield, plus [undefined] for a member that is not
    there.  Numbers are carried as integers: the script never computes with
    a number of a response, it only tests it for truthiness. *)
Inductive value : Type :=
| VUndefined
| VNull
| VBool (b : bool)
| VNum (n : Z)
| VStr (s : jsstring)
| VArr (elems : list value)
| VObj (members : list (jsstring * value)).

(** ToBoolean. *)
Definition truthy (v : value) : bool :=
  match v with
  | VUndefined | VNull => false
  | VBool b => b
  | VNum n => negb (Z.eqb n 0)
  | VStr s => match s with [] => false | _ => true end
  | VArr _ | VObj _ => true
  end.

(** ToString, as [RegExp.prototype.test] applies it to its argument.  A
    plain object renders as [[object Object]]; an array joins its elements
    with a comma, [null] rendering as the empty string there. *)
Fixpoint ToString (v : value) : jsstring :=
  match v with
  | VUndefined => js "undefined"
  | VNull => js "null"
  | VBool true => js "true"
  | VBool false => js "false"
  | VNum n => Z_to_js n
  | VStr s => s
  | VArr elems =>
      join (js ",")
        (map (fun e => match e with
                       | VUndefined | VNull => []
                       | _ => ToString e
                       end) elems)
  | VObj _ => js "[object Object]"
  end.

(** The member names the script reads from a response. *)
Inductive member : Type :=
| Data | Errors
| MetaobjectDefinitionCreate | MetafieldDefinitionCreate
| UserErrors | Length | Message.

Definition member_name (m : member) : jsstring :=
  match m with
  | Data => js "data"
  | Errors => js "errors"
  | MetaobjectDefinitionCreate => js "metaobjectDefinitionCreate"
  | MetafieldDefinitionCreate => js "metafieldDefinitionCreate"
  | UserErrors => js "userErrors"
  | Length => js "length"
  | Message => js "message"
  end.

(** Own property of a parsed object: the binding of the key, else
    [undefined]. *)
Fixpoint lookup (key : jsstring) (members : list (jsstring * value)) : value :=
  match members with
  | [] => VUndefined
  | (k, v) :: rest => if jsstring_eqb k key then v else lookup key rest
  end.

(* ================================================================== *)
(** ** Exceptions and console arguments *)

(** A string built at run time: a plain string, or the result of
    [JSON.stringify(v, null, space)] (space 0: the compact form), kept
    symbolic. *)
Inductive text : Type :=
| Str (s : jsstring)
| Stringify (v : value) (space : N).

Inductive fault : Type :=
| CannotRead (base : value) (name : jsstring)   (* member read on null / undefined *)
| NotAFunction (base : value) (name : jsstring).

Inductive exn : Type :=
| Error (message : text)        (* [new Error(message)] *)
| TypeError (f : fault)         (* raised by the engine *)
| SyntaxError                   (* [res.json()] on a payload that is not JSON *)
| FetchError (reason : jsstring). (* [fetch] itself rejected *)

Inductive arg : Type :=
| Text (t : text)
| Caught (e : exn).

Inductive level : Type := Log | Err.   (* [console.log] / [console.error] *)

(** [v.m] for one of the member names above. *)
Definition get (v : value) (m : member) : exn + value :=
  match v with
  | VUndefined | VNull => inl (TypeError (CannotRead v (member_name m)))
  | VObj members => inr (lookup (member_name m) members)
  | VArr elems =>
      inr (match m with Length => VNum (Z.of_nat (List.length elems)) | _ => VUndefined end)
  | VStr s =>
      inr (match m with Length => VNum (Z.of_nat (List.length s)) | _ => VUndefined end)
  | VBool _ | VNum _ => inr VUndefined
  end.

(* ================================================================== *)
(** ** Definition specs and requests *)

Record field_definition : Type := {
  fd_key : jsstring;
  fd_name : jsstring;
  fd_description : jsstring;
  fd_type : jsstring;
  fd_required : bool
}.

Record metaobject_definition : Type := {
  mo_name : jsstring;
  mo_type : jsstring;
  mo_fieldDefinitions : list field_definition
}.

Record metafield_definition : Type := {
  mf_name : jsstring;
  mf_namespace : jsstring;
  mf_key : jsstring;
  mf_type : jsstring;
  mf_description : jsstring;
  mf_ownerType : jsstring
}.

(** The [definition] variable of a mutation. *)
Inductive definition : Type :=
| Metaobject (d : metaobject_definition)
| Metafield (d : metafield_definition).

(** The argument of [fetch]: the URL and the init object.  The body is
    [JSON.stringify({ query, variables: { definition } })], kept as its
    two parts. *)
Record request : Type := {
  url : jsstring;
  method : jsstring;
  headers : list (jsstring * option jsstring);
  query : jsstring;
  variables : definition
}.

Record response : Type := {
  status : N;
  statusText : jsstring;
  body : option value     (* what [res.json()] yields; [None]: not JSON *)
}.

(** [res.ok] *)
Definition ok (res : response) : bool :=
  (200 <=? status res) && (status res <=? 299).

Inductive fetch_result : Type :=
| Rejected (reason : jsstring)
| Resolved (res : response).

(** [process.env], as far as the script destructures it. *)
Record environment : Type := {
  SHOPIFY_STORE : option jsstring;
  SHOPIFY_ADMIN_ACCESS_TOKEN : option jsstring;
  SHOPIFY_API_VERSION : option jsstring
}.

(* ================================================================== *)
(** ** Programs *)

(** A script as the tree of its interactions.  [ProcessExit] has no
    continuation: [process.exit] does not return. *)
Inductive prog (A : Type) : Type :=
| Ret (a : A)
| Throw (e : exn)
| ProcessExit (code : N)
| Console (lvl : level) (args : list arg) (k : prog A)
| Fetch (req : request) (k : fetch_result -> prog A).

Arguments Ret {A} a.
Arguments Throw {A} e.
Arguments ProcessExit {A} code.
Arguments Console {A} lvl args k.
Arguments Fetch {A} req k.

Fixpoint bind {A B : Type} (p : prog A) (f : A -> prog B) : prog B :=
  match p with
  | Ret a => f a
  | Throw e => Throw e
  | ProcessExit code => ProcessExit code
  | Console lvl args k => Console lvl args (bind k f)
  | Fetch req k => Fetch req (fun r => bind (k r) f)
  end.

(** [p.catch(handler)] / [try { p } catch (e) { handler }] *)
Fixpoint try_catch {A : Type} (p : prog A) (handler : exn -> prog A) : prog A :=
  match p with
  | Ret a => Ret a
  | Throw e => handler e
  | ProcessExit code => ProcessExit code
  | Console lvl args k => Console lvl args (try_catch k handler)
  | Fetch req k => Fetch req (fun r => try_catch (k r) handler)
  end.

Declare Scope prog_scope.
Delimit Scope prog_scope with prog.
Notation "x <- p ;; q" := (bind p (fun x => q))
  (at level 61, p at next level, right associativity) : prog_scope.
Notation "p ;; q" := (bind p (fun _ => q))
  (at level 61, right associativity) : prog_scope.
Local Open Scope prog_scope.

Definition console_error (args : list arg) : prog unit := Console Err args (Ret tt).
Definition console_log (args : list arg) : prog unit := Console Log args (Ret tt).
Definition process_exit {A : Type} (code : N) : prog A := ProcessExit code.

(** A member read inside a program. *)
Definition read (v : value) (m : member) : prog value :=
  match get v m with
  | inl e => Throw e
  | inr x => Ret x
  end.

(** [for (const x of xs) { await f(x); }] *)
Fixpoint for_of {A : Type} (xs : list A) (f : A -> prog unit) : prog unit :=
  match xs with
  | [] => Ret tt
  | x :: rest => f x ;; for_of rest f
  end.

(** [xs.filter(keep)] with a callback that may throw. *)
Fixpoint filter_elems (keep : value -> exn + bool) (xs : list value)
  : exn + list value :=
  match xs with
  | [] => inr []
  | x :: rest =>
      match keep x with
      | inl e => inl e
      | inr b =>
          match filter_elems keep rest with
          | inl e => inl e
          | inr kept => inr (if b then x :: kept else kept)
          end
      end
  end.

(** [v.filter(keep)]: only an array has the method. *)
Definition filter_method (v : value) (keep : value -> exn + bool) : prog (list value) :=
  match v with
  | VArr elems =>
      match filter_elems keep elems with
      | inl e => Throw e
      | inr kept => Ret kept
      end
  | VUndefined | VNull => Throw (TypeError (CannotRead v (js "filter")))
  | _ => Throw (TypeError (NotAFunction v (js "filter")))
  end.

(* ================================================================== *)
(** ** The script *)

(** Truthiness of a destructured environment variable: [undefined] and the
    empty string are falsy. *)
Definition env_truthy (x : option jsstring) : bool :=
  match x with
  | Some (_ :: _) => true
  | _ => false
  end.

(** A destructured environment variable inside a template literal. *)
Definition env_text (x : option jsstring) : jsstring :=
  match x with
  | Some s => s
  | None => js "undefined"
  end.

Definition assertEnv (env : environment) : prog unit :=
  let missing := [] in
  let missing :=
    if negb (env_truthy (SHOPIFY_STORE env))
    then missing ++ [js "SHOPIFY_STORE"] else missing in
  let missing :=
    if negb (env_truthy (SHOPIFY_ADMIN_ACCESS_TOKEN env))
    then missing ++ [js "SHOPIFY_ADMIN_ACCESS_TOKEN"] else missing in
  let missing :=
    if negb (env_truthy (SHOPIFY_API_VERSION env))
    then missing ++ [js "SHOPIFY_API_VERSION"] else missing in
  if negb (Nat.eqb (List.length missing) 0) then
    console_error
      [Text (Str (js "Missing environment variables: " ++ join (js ", ") missing))] ;;
    process_exit 1
  else Ret tt.

(** The arguments of the [fetch] call of [shopifyGraphQL]. *)
Definition graphql_request (env : environment) (query : jsstring)
    (definition : definition) : request :=
  {| url := js "https://" ++ env_text (SHOPIFY_STORE env)
            ++ js ".myshopify.com/admin/api/"
            ++ env_text (SHOPIFY_API_VERSION env) ++ js "/graphql.json";
     method := js "POST";
     headers :=
       [ (js "Content-Type", Some (js "application/json"));
         (js "X-Shopify-Access-Token", SHOPIFY_ADMIN_ACCESS_TOKEN env) ];
     query := query;
     variables := definition |}.

Definition shopifyGraphQL (env : environment) (query : jsstring)
    (definition : definition) : prog value :=
  Fetch (graphql_request env query definition)
    (fun fetched =>
       match fetched with
       | Rejected reason => Throw (FetchError reason)
       | Resolved res =>
           if negb (ok res) then
             Throw (Error (Str (js "GraphQL request failed: "
                                ++ N_to_js (status res) ++ js " " ++ statusText res)))
           else
             match body res with
             | None => Throw SyntaxError
             | Some parsed => Ret parsed
             end
       end).

Definition metaobject_mutation : jsstring := js "
    mutation MetaobjectDefinitionCreate($definition: MetaobjectDefinitionCreateInput!) {
      metaobjectDefinitionCreate(definition: $definition) {
        metaobjectDefinition {
          id
        }
        userErrors {
          field
          message
        }
      }
    }
  ".

Definition metafield_mutation : jsstring := js "
    mutation MetafieldDefinitionCreate($definition: MetafieldDefinitionInput!) {
      metafieldDefinitionCreate(definition: $definition) {
        createdDefinition {
          id
        }
        userErrors {
          field
          message
        }
      }
    }
  ".

(** [(err) => !re.test(err.message)]

    In the create functions below, [guard] is the value of
    [result.userErrors && result.userErrors.length]: the length is read
    only when [userErrors] is truthy. *)
Definition not_dupe (re : RegExp.regex) (err : value) : exn + bool :=
  match get err Message with
  | inl e => inl e
  | inr message => inr (negb (RegExp.test re (ToString message)))
  end.

Definition createMetaobject (env : environment)
    (definition : metaobject_definition) : prog unit :=
  let mutation := metaobject_mutation in
  response <- shopifyGraphQL env mutation (Metaobject definition) ;;
  data <- read response Data ;;
  errors <- read response Errors ;;
  if truthy errors then Throw (Error (Stringify errors 0)) else
  result <- read data MetaobjectDefinitionCreate ;;
  userErrors <- read result UserErrors ;;
  guard <- (if truthy userErrors then read userErrors Length else Ret userErrors) ;;
  if truthy guard then
    nonDupeErrors <- filter_method userErrors (not_dupe metaobject_dupe_re) ;;
    if negb (Nat.eqb (List.length nonDupeErrors) 0) then
      console_error
        [ Text (Str (js "Metaobject " ++ mo_type definition ++ js " creation errors:"));
          Text (Stringify (VArr nonDupeErrors) 2) ] ;;
      Throw (Error (Str (js "Metaobject creation failed")))
    else Ret tt
  else Ret tt.

Definition createMetafield (env : environment)
    (definition : metafield_definition) : prog unit :=
  let mutation := metafield_mutation in
  response <- shopifyGraphQL env mutation (Metafield definition) ;;
  data <- read response Data ;;
  errors <- read response Errors ;;
  if truthy errors then Throw (Error (Stringify errors 0)) else
  result <- read data MetafieldDefinitionCreate ;;
  userErrors <- read result UserErrors ;;
  guard <- (if truthy userErrors then read userErrors Length else Ret userErrors) ;;
  if truthy guard then
    nonDupeErrors <- filter_method userErrors (not_dupe metafield_dupe_re) ;;
    if negb (Nat.eqb (List.length nonDupeErrors) 0) then
      console_error
        [ Text (Str (js "Metafield " ++ mf_key definition ++ js " creation errors:"));
          Text (Stringify (VArr nonDupeErrors) 2) ] ;;
      Throw (Error (Str (js "Metafield creation failed")))
    else Ret tt
  else Ret tt.

Definition metaobjects : list metaobject_definition :=
  [ {| mo_name := js "Badge";
       mo_type := js "badge";
       mo_fieldDefinitions :=
         [ {| fd_key := js "label";
              fd_name := js "Label";
              fd_description := js "Short text for the badge label";
              fd_type := js "single_line_text_field";
              fd_required := true |};
           {| fd_key := js "icon";
              fd_name := js "Icon";
              fd_description := js "Icon file for the badge";
              fd_type := js "file_reference";
              fd_required := true |};
           {| fd_key := js "color";
              fd_name := js "Color";
              fd_description := js "Optional color name for the badge";
              fd_type := js "single_line_text_field";
              fd_required := false |} ] |};
    {| mo_name := js "Testimonial";
       mo_type := js "testimonial";
       mo_fieldDefinitions :=
         [ {| fd_key := js "name";
              fd_name := js "Name";
              fd_type := js "single_line_text_field";
              fd_description := js "Name of the person giving the testimonial";
              fd_required := true |};
           {| fd_key := js "quote";
              fd_name := js "Quote";
              fd_type := js "multi_line_text_field";
              fd_description := js "The testimonial text";
              fd_required := true |};
           {| fd_key := js "pain_area";
              fd_name := js "Pain Area";
              fd_type := js "single_line_text_field";
              fd_description := js "The customer pain area addressed";
              fd_required := true |} ] |};
    {| mo_name := js "Press logo";
       mo_type := js "press_logo";
       mo_fieldDefinitions :=
         [ {| fd_key := js "image";
              fd_name := js "Image";
              fd_type := js "file_reference";
              fd_description := js "Logo image";
              fd_required := true |};
           {| fd_key := js "url";
              fd_name := js "URL";
              fd_type := js "url";
              fd_description := js "Link to the press article";
              fd_required := true |} ] |} ].

Definition metafields : list metafield_definition :=
  [ {| mf_name := js "Hero eyebrow";
       mf_namespace := js "qf";
       mf_key := js "hero_eyebrow";
       mf_type := js "single_line_text_field";
       mf_description := js "Eyebrow text displayed above product title";
       mf_ownerType := js "PRODUCT" |};
    {| mf_name := js "Review count";
       mf_namespace := js "qf";
       mf_key := js "review_count";
       mf_type := js "number_integer";
       mf_description := js "Total number of reviews";
       mf_ownerType := js "PRODUCT" |};
    {| mf_name := js "Average rating";
       mf_namespace := js "qf";
       mf_key := js "avg_rating";
       mf_type := js "number_decimal";
       mf_description := js "Average customer rating";
       mf_ownerType := js "PRODUCT" |};
    {| mf_name := js "USP pills";
       mf_namespace := js "qf";
       mf_key := js "usp_pills";
       mf_type := js "list.single_line_text_field";
       mf_description := js "Unique selling proposition pills";
       mf_ownerType := js "PRODUCT" |} ].

Definition confirmation : jsstring :=
  js "Metaobject and metafield definitions ensured.".

Definition main (env : environment) : prog unit :=
  assertEnv env ;;
  for_of metaobjects (createMetaobject env) ;;
  for_of metafields (createMetafield env) ;;
  console_log [Text (Str confirmation)].

(** The module body: [main().catch((err) => { console.error(err);
    process.exit(1); })]. *)
Definition script (env : environment) : prog unit :=
  try_catch (main env)
    (fun err => console_error [Caught err] ;; process_exit 1).

(* ================================================================== *)
(** ** Running a program against a remote endpoint *)

Inductive event : Type :=
| Printed (lvl : level) (args : list arg)
| Fetched (req : request) (res : fetch_result).

(** How a program ends: it runs to completion, an exception escapes it, or
    [process.exit] stops the process. *)
Inductive ending (A : Type) : Type :=
| Completed (a : A)
| Uncaught (e : exn)
| Exited (code : N).

Arguments Completed {A} a.
Arguments Uncaught {A} e.
Arguments Exited {A} code.

Record run (A B : Type) : Type := {
  trace : list event;
  final : ending A;
  remote : B
}.

Arguments trace {A B} r.
Arguments final {A B} r.
Arguments remote {A B} r.

Definition emit {A B : Type} (e : event) (r : run A B) : run A B :=
  {| trace := e :: trace r; final := final r; remote := remote r |}.

Definition prepend {A B : Type} (tr : list event) (r : run A B) : run A B :=
  {| trace := tr ++ trace r; final := final r; remote := remote r |}.

(** Sequencing of runs: the second part runs only when the first completed. *)
Definition and_then {A A' B : Type} (r : run A B) (k : A -> B -> run A' B)
  : run A' B :=
  match final r with
  | Completed a => prepend (trace r) (k a (remote r))
  | Uncaught e => {| trace := trace r; final := Uncaught e; remote := remote r |}
  | Exited code => {| trace := trace r; final := Exited code; remote := remote r |}
  end.

(** Recovery: the handler runs only when an exception escaped. *)
Definition or_else {A B : Type} (r : run A B) (h : exn -> B -> run A B)
  : run A B :=
  match final r with
  | Uncaught e => prepend (trace r) (h e (remote r))
  | _ => r
  end.

Section Execution.

(** The endpoint: its state, and how it answers a request. *)
Context {backend : Type}.
Variable server : request -> backend -> fetch_result * backend.

Fixpoint exec {A : Type} (p : prog A) (st : backend) : run A backend :=
  match p with
  | Ret a => {| trace := []; final := Completed a; remote := st |}
  | Throw e => {| trace := []; final := Uncaught e; remote := st |}
  | ProcessExit code => {| trace := []; final := Exited code; remote := st |}
  | Console lvl args k => emit (Printed lvl args) (exec k st)
  | Fetch req k =>
      let (res, st') := server req st in
      emit (Fetched req res) (exec (k res) st')
  end.

End Execution.

(** The exit code of the node process: 0 when the module body runs to
    completion, the argument of [process.exit], 1 for an exception nobody
    handles. *)
Definition exit_code {A : Type} (s : ending A) : N :=
  match s with
  | Completed _ => 0
  | Uncaught _ => 1
  | Exited code => code
  end.

(** The network calls of a trace, in order. *)
Fixpoint requests (tr : list event) : list request :=
  match tr with
  | [] => []
  | Fetched req _ :: rest => req :: requests rest
  | Printed _ _ :: rest => requests rest
  end.

(** The exchanges (request and answer) of a trace, in order. *)
Fixpoint exchanges (tr : list event) : list (request * fetch_result) :=
  match tr with
  | [] => []
  | Fetched req res :: rest => (req, res) :: exchanges rest
  | Printed _ _ :: rest => exchanges rest
  end.

(** An exchange as an event of the trace. *)
Definition fetched (x : request * fetch_result) : event :=
  Fetched (fst x) (snd x).

(** What was printed, in order. *)
Fixpoint printed (tr : list event) : list (level * list arg) :=
  match tr with
  | [] => []
  | Printed lvl args :: rest => (lvl, args) :: printed rest
  | Fetched _ _ :: rest => printed rest
  end.

(* ================================================================== *)
(** ** Vocabulary for the properties *)

(** All three connection parameters are present. *)
Definition env_ok (env : environment) : bool :=
  env_truthy (SHOPIFY_STORE env)
  && env_truthy (SHOPIFY_ADMIN_ACCESS_TOKEN env)
  && env_truthy (SHOPIFY_API_VERSION env).

(** The required variables, in the order [assertEnv] checks them. *)
Definition required : list (jsstring * (environment -> option jsstring)) :=
  [ (js "SHOPIFY_STORE", SHOPIFY_STORE);
    (js "SHOPIFY_ADMIN_ACCESS_TOKEN", SHOPIFY_ADMIN_ACCESS_TOKEN);
    (js "SHOPIFY_API_VERSION", SHOPIFY_API_VERSION) ].

(** The names of the required variables that are unset or empty. *)
Definition missing_names (env : environment) : list jsstring :=
  map fst (filter (fun v => negb (env_truthy (snd v env))) required).

Definition missing_report (env : environment) : event :=
  Printed Err
    [Text (Str (js "Missing environment variables: "
                ++ join (js ", ") (missing_names env)))].

(** The environment with every variable that is set to the empty string
    removed. *)
Definition drop_empty (x : option jsstring) : option jsstring :=
  match x with
  | Some [] => None
  | _ => x
  end.

Definition without_empty (env : environment) : environment :=
  {| SHOPIFY_STORE := drop_empty (SHOPIFY_STORE env);
     SHOPIFY_ADMIN_ACCESS_TOKEN := drop_empty (SHOPIFY_ADMIN_ACCESS_TOKEN env);
     SHOPIFY_API_VERSION := drop_empty (SHOPIFY_API_VERSION env) |}.

(** One spec of either catalog, handed to its create function. *)
Definition attempt (env : environment) (d : definition) : prog unit :=
  match d with
  | Metaobject mo => createMetaobject env mo
  | Metafield mf => createMetafield env mf
  end.

(** The seven specs in the order [main] walks them. *)
Definition plan : list definition :=
  map Metaobject metaobjects ++ map Metafield metafields.

Definition mutation_of (d : definition) : jsstring :=
  match d with
  | Metaobject _ => metaobject_mutation
  | Metafield _ => metafield_mutation
  end.

Definition request_for (env : environment) (d : definition) : request :=
  graphql_request env (mutation_of d) d.

(** What a program does with the answer to its first request. *)
Definition continuation {A : Type} (p : prog A) : fetch_result -> prog A :=
  match p with
  | Fetch _ k => k
  | _ => fun _ => p
  end.

(** A program that prints to the error console, if at all, and then
    throws. *)
Fixpoint doomed {A : Type} (p : prog A) : Prop :=
  match p with
  | Throw _ => True
  | Console Err _ k => doomed k
  | _ => False
  end.

(** Every printed line went to the error console. *)
Definition only_errors (lines : list (level * list arg)) : Prop :=
  Forall (fun line => fst line = Err) lines.

(** A program without network calls and without [process.exit] that prints
    only on its way to an exception. *)
Definition tidy {A : Type} (p : prog A) : Prop :=
  match p with
  | Ret _ => True
  | _ => doomed p
  end.

(** The exception of [shopifyGraphQL] for a response that is not [ok]. *)
Definition transport_error (res : response) : exn :=
  Error (Str (js "GraphQL request failed: "
              ++ N_to_js (status res) ++ js " " ++ statusText res)).

(** The heading of the error report of a create function. *)
Definition report_heading (d : definition) : jsstring :=
  match d with
  | Metaobject mo => js "Metaobject " ++ mo_type mo ++ js " creation errors:"
  | Metafield mf => js "Metafield " ++ mf_key mf ++ js " creation errors:"
  end.

(** The exception of a create function for user errors it does not ignore. *)
Definition creation_failed (d : definition) : exn :=
  match d with
  | Metaobject _ => Error (Str (js "Metaobject creation failed"))
  | Metafield _ => Error (Str (js "Metafield creation failed"))
  end.

(** An endpoint that gives one fixed answer and keeps no state. *)
Definition answered (res : fetch_result) : request -> unit -> fetch_result * unit :=
  fun _ _ => (res, tt).

(** One create call on its own, given the answer to its request. *)
Definition settle (env : environment) (d : definition) (res : fetch_result)
  : run unit unit :=
  exec (answered res) (attempt env d) tt.

(** The create call returned: the spec was created or was a suppressed
    duplicate. *)
Definition resolves (env : environment) (d : definition) (res : fetch_result) : bool :=
  match final (settle env d res) with
  | Completed _ => true
  | _ => false
  end.

Definition resolved (env : environment) (x : request * fetch_result) : bool :=
  resolves env (variables (fst x)) (snd x).

(** The answers an endpoint gives to a sequence of requests sent one after
    the other, each after the answer to the one before, and the state it is
    left in. *)
Fixpoint replay {backend : Type}
    (server : request -> backend -> fetch_result * backend)
    (reqs : list request) (st : backend) : list fetch_result * backend :=
  match reqs with
  | [] => ([], st)
  | req :: rest =>
      let (res, st') := server req st in
      let (answers, st'') := replay server rest st' in
      (res :: answers, st'')
  end.

(** The message of a well-formed user error [{ field, message }]. *)
Definition user_error_message (err : value) : option jsstring :=
  match err with
  | VObj members =>
      match lookup (js "message") members with
      | VStr s => Some s
      | _ => None
      end
  | _ => None
  end.

Definition dupe_re (d : definition) : RegExp.regex :=
  match d with
  | Metaobject _ => metaobject_dupe_re
  | Metafield _ => metafield_dupe_re
  end.

Definition result_member (d : definition) : member :=
  match d with
  | Metaobject _ => MetaobjectDefinitionCreate
  | Metafield _ => MetafieldDefinitionCreate
  end.

(** The [userErrors] of a well-formed success response: HTTP success, a
    JSON object without (truthy) [errors], and the mutation result under
    [data]. *)
Definition user_errors_of (d : definition) (res : fetch_result) : option value :=
  match res with
  | Resolved r =>
      if ok r then
        match body r with
        | Some (VObj top) =>
            if truthy (lookup (js "errors") top) then None
            else
              match lookup (js "data") top with
              | VObj data =>
                  match lookup (member_name (result_member d)) data with
                  | VObj result => Some (lookup (js "userErrors") result)
                  | _ => None
                  end
              | _ => None
              end
        | _ => None
        end
      else None
  | Rejected _ => None
  end.

(** The endpoint reports the definition as created: no user error. *)
Definition reports_created (d : definition) (res : fetch_result) : bool :=
  match user_errors_of d res with
  | Some (VArr []) | Some VNull | Some VUndefined => true
  | _ => false
  end.

Definition is_dupe_error (re : RegExp.regex) (err : value) : bool :=
  match user_error_message err with
  | Some m => RegExp.test re m
  | None => false
  end.

(** The endpoint reports a duplicate: at least one user error, each one an
    "already exists" message for the kind of definition. *)
Definition reports_duplicate (d : definition) (res : fetch_result) : bool :=
  match user_errors_of d res with
  | Some (VArr (e :: es)) => forallb (is_dupe_error (dupe_re d)) (e :: es)
  | _ => false
  end.

(** What the remote system keys a definition by. *)
Inductive identity : Type :=
| MetaobjectType (type : jsstring)
| MetafieldKey (ownerType namespace key : jsstring).

Definition identity_of (d : definition) : identity :=
  match d with
  | Metaobject mo => MetaobjectType (mo_type mo)
  | Metafield mf => MetafieldKey (mf_ownerType mf) (mf_namespace mf) (mf_key mf)
  end.

Definition identity_eqb (a b : identity) : bool :=
  match a, b with
  | MetaobjectType t, MetaobjectType t' => jsstring_eqb t t'
  | MetafieldKey o n k, MetafieldKey o' n' k' =>
      jsstring_eqb o o' && jsstring_eqb n n' && jsstring_eqb k k'
  | _, _ => false
  end.

(** A user error object whose [message] is a string, is [null], or is not
    there. *)
Definition lax_user_error (err : value) : bool :=
  match err with
  | VObj members =>
      match lookup (js "message") members with
      | VStr _ | VNull | VUndefined => true
      | _ => false
      end
  | _ => false
  end.

(** The verdict of the filter callback on an element it can read. *)
Definition kept_by (re : RegExp.regex) (err : value) : bool :=
  match not_dupe re err with
  | inr b => b
  | inl _ => false
  end.

(** A program that returns, or throws, or prints the error report of the
    create call for [d] -- its heading and a non-empty JSON list -- and
    then throws the "creation failed" error of [d]. *)
Definition reporting (d : definition) {A : Type} (p : prog A) : Prop :=
  match p with
  | Ret _ | Throw _ => True
  | Console Err args (Throw e) =>
      e = creation_failed d
      /\ exists k ks,
           args = [ Text (Str (report_heading d));
                    Text (Stringify (VArr (k :: ks)) 2) ]
  | _ => False
  end.

(** The URL of the Admin GraphQL endpoint of a store for an API version. *)
Definition endpoint (store version : jsstring) : jsstring :=
  js "https://" ++ store ++ js ".myshopify.com/admin/api/" ++ version
  ++ js "/graphql.json".

(** The answer in an exchange fits what the store held in state [st]:
    "already exists" for a definition that was there, "created" for one
    that was not. *)
Definition report_matches {backend : Type} (defined : backend -> identity -> bool)
    (st : backend) (x : request * fetch_result) : Prop :=
  if defined st (identity_of (variables (fst x)))
  then reports_duplicate (variables (fst x)) (snd x) = true
  else reports_created (variables (fst x)) (snd x) = true.

(* ================================================================== *)
(** ** Sample inputs and endpoints *)

Module Sample.

Definition env : environment :=
  {| SHOPIFY_STORE := Some (js "getqflex");
     SHOPIFY_ADMIN_ACCESS_TOKEN := Some (js "shpat_0123");
     SHOPIFY_API_VERSION := Some (js "2024-07") |}.

Definition user_error (field message : string) : value :=
  VObj [ (js "field", VArr [VStr (js "definition"); VStr (js field)]);
         (js "message", VStr (js message)) ].

(** [{ "data": { <mutation>: { "userErrors": errs } } }] with status 200. *)
Definition answer (m : member) (errs : value) : fetch_result :=
  Resolved
    {| status := 200;
       statusText := js "OK";
       body := Some (VObj [ (js "data",
                             VObj [ (member_name m,
                                     VObj [ (js "userErrors", errs) ]) ]) ]) |}.

Definition created (d : definition) : fetch_result :=
  answer (result_member d) (VArr []).

Definition duplicate (d : definition) : fetch_result :=
  match d with
  | Metaobject _ =>
      answer MetaobjectDefinitionCreate
        (VArr [user_error "type" "Type already exists"])
  | Metafield _ =>
      answer MetafieldDefinitionCreate
        (VArr [user_error "key" "Definition already exists for this key"])
  end.

Definition invalid (d : definition) : fetch_result :=
  answer (result_member d)
    (VArr [ user_error "type" "Type already exists";
            user_error "name" "Name is too long" ]).

(** Every definition is reported as already existing. *)
Definition always_duplicate : request -> unit -> fetch_result * unit :=
  fun req _ => (duplicate (variables req), tt).

(** Answers from a script: the state is the list of answers still to be
    given; when it runs dry the connection fails. *)
Definition scripted : request -> list fetch_result -> fetch_result * list fetch_result :=
  fun _ pending =>
    match pending with
    | [] => (Rejected (js "ECONNRESET"), [])
    | res :: rest => (res, rest)
    end.

(** A store that keeps the definitions it has created. *)
Definition store : request -> list identity -> fetch_result * list identity :=
  fun req defs =>
    let d := variables req in
    if existsb (identity_eqb (identity_of d)) defs
    then (duplicate d, defs)
    else (created d, identity_of d :: defs).

Definition has (defs : list identity) (k : identity) : bool :=
  existsb (identity_eqb k) defs.

(** The [i]-th spec of the plan. *)
Definition spec (i : nat) : definition :=
  nth i plan (Metaobject (Build_metaobject_definition [] [] [])).

End Sample.

(* ================================================================== *)
(** ** What the two patterns match *)

Lemma match_here_chars cs r s :
  RegExp.match_here (RegExp.chars cs ++ r) s = true <->
  exists t s', s = t ++ s' /\ RegExp.same_letters t cs /\ RegExp.match_here r s' = true.
Proof.
  unfold RegExp.same_letters, RegExp.chars.
  revert s; induction cs as [| p cs IH]; intros s; cbn [map app].
  - split.
    + intros H; exists [], s; auto.
    + intros (t & s' & -> & Ht & H). destruct t; [exact H | discriminate].
  - cbn [RegExp.match_here]. destruct s as [| c s].
    + split; [discriminate |].
      intros (t & s' & E & Ht & _). destruct t; [discriminate Ht | discriminate E].
    + cbn [RegExp.atom_matches]; rewrite andb_true_iff, N.eqb_eq, IH; split.
      * intros (Hc & t & s' & -> & Ht & H).
        exists (c :: t), s'; cbn [map app]; repeat split; auto; congruence.
      * intros (t & s' & E & Ht & H).
        destruct t as [| c' t]; [discriminate Ht |].
        cbn [map app] in E, Ht; injection E as -> ->; injection Ht as Hc Ht.
        split; [exact Hc | exists t, s'; auto].
Qed.

Lemma match_here_many a r s :
  RegExp.match_here (RegExp.Many a :: r) s =
  RegExp.match_here r s ||
  match s with
  | c :: s' => RegExp.atom_matches a c && RegExp.match_here (RegExp.Many a :: r) s'
  | [] => false
  end.
Proof. destruct s; reflexivity. Qed.

Lemma match_here_dot_star r s :
  RegExp.match_here (RegExp.Many RegExp.Dot :: r) s = true <->
  exists gap s', s = gap ++ s' /\ RegExp.no_line_break gap /\ RegExp.match_here r s' = true.
Proof.
  unfold RegExp.no_line_break.
  induction s as [| c s IH]; rewrite match_here_many, orb_true_iff.
  - split.
    + intros [H | H]; [| discriminate]. exists [], []; auto.
    + intros (gap & s' & E & _ & H). symmetry in E; apply app_eq_nil in E as [_ ->]; auto.
  - rewrite andb_true_iff, IH; cbn [RegExp.atom_matches]; split.
    + intros [H | (Hc & gap & s' & -> & Hg & H)].
      * exists [], (c :: s); auto.
      * exists (c :: gap), s'; cbn [forallb app]; rewrite Hc, Hg; auto.
    + intros (gap & s' & E & Hg & H).
      destruct gap as [| c' gap]; cbn [app] in E.
      * left; now subst s'.
      * injection E as -> ->; cbn [forallb] in Hg; apply andb_prop in Hg as [Hc Hg].
        right; split; [exact Hc | exists gap, s'; auto].
Qed.

Lemma test_search r s :
  RegExp.test r s = true <->
  exists pre s', s = pre ++ s' /\ RegExp.match_here r s' = true.
Proof.
  induction s as [| c s IH]; cbn [RegExp.test]; rewrite orb_true_iff.
  - split.
    + intros [H | H]; [| discriminate]. exists [], []; auto.
    + intros (pre & s' & E & H). symmetry in E; apply app_eq_nil in E as [_ ->]; auto.
  - rewrite IH; split.
    + intros [H | (pre & s' & -> & H)].
      * exists [], (c :: s); auto.
      * exists (c :: pre), s'; auto.
    + intros (pre & s' & E & H).
      destruct pre as [| c' pre]; cbn [app] in E.
      * left; now subst s'.
      * injection E as -> ->; right; exists pre, s'; auto.
Qed.

(** [/<word>.*already exists/i] matches a string exactly when the string
    contains the word, then any characters other than line terminators,
    then "already exists", letters compared without regard to case. *)
Lemma dupe_pattern_meaning (word : string) s :
  RegExp.test (RegExp.lit word ++ [RegExp.Many RegExp.Dot] ++ RegExp.lit "already exists") s = true <->
  exists pre t gap a post,
    s = pre ++ t ++ gap ++ a ++ post
    /\ RegExp.same_letters t (js word)
    /\ RegExp.no_line_break gap
    /\ RegExp.same_letters a (js "already exists").
Proof.
  unfold RegExp.lit; rewrite test_search; split.
  - intros (pre & s1 & -> & H).
    apply match_here_chars in H as (t & s2 & -> & Ht & H).
    cbn [app] in H; apply match_here_dot_star in H as (gap & s3 & -> & Hg & H).
    rewrite <- (app_nil_r (RegExp.chars (js "already exists"))) in H.
    apply match_here_chars in H as (a & post & -> & Ha & _).
    exists pre, t, gap, a, post; auto.
  - intros (pre & t & gap & a & post & -> & Ht & Hg & Ha).
    exists pre, (t ++ gap ++ a ++ post); split; [reflexivity |].
    apply match_here_chars; exists t, (gap ++ a ++ post); repeat split; auto.
    cbn [app]; apply match_here_dot_star; exists gap, (a ++ post); repeat split; auto.
    rewrite <- (app_nil_r (RegExp.chars (js "already exists"))).
    apply match_here_chars; exists a, post; repeat split; auto.
Qed.

(* ================================================================== *)
(** ** Runs of composed programs *)

Section ExecFacts.

Context {backend : Type}.
Variable server : request -> backend -> fetch_result * backend.

Lemma prepend_nil {A} (r : run A backend) : prepend [] r = r.
Proof. destruct r; reflexivity. Qed.

Lemma emit_and_then {A B} e (r : run A backend) (k : A -> backend -> run B backend) :
  and_then (emit e r) k = emit e (and_then r k).
Proof. destruct r as [tr [a | x | code] st]; reflexivity. Qed.

Lemma emit_or_else {A} e (r : run A backend) h :
  or_else (emit e r) h = emit e (or_else r h).
Proof. destruct r as [tr [a | x | code] st]; reflexivity. Qed.

Lemma exec_bind {A B} (p : prog A) (f : A -> prog B) st :
  exec server (bind p f) st =
  and_then (exec server p st) (fun a st' => exec server (f a) st').
Proof.
  revert st; induction p as [a | e | code | lvl args k IH | req k IH]; intros st; simpl.
  - unfold and_then; simpl; now rewrite prepend_nil.
  - reflexivity.
  - reflexivity.
  - now rewrite IH, emit_and_then.
  - destruct (server req st) as [res st']; now rewrite IH, emit_and_then.
Qed.

Lemma exec_ret_and_then {A B} (a : A) (k : A -> backend -> run B backend) st :
  and_then (exec server (Ret a) st) k = k a st.
Proof. unfold and_then; simpl; apply prepend_nil. Qed.

Lemma exec_try_catch {A} (p : prog A) h st :
  exec server (try_catch p h) st =
  or_else (exec server p st) (fun e st' => exec server (h e) st').
Proof.
  revert st; induction p as [a | e | code | lvl args k IH | req k IH]; intros st; simpl.
  - reflexivity.
  - unfold or_else; simpl; now rewrite prepend_nil.
  - reflexivity.
  - now rewrite IH, emit_or_else.
  - destruct (server req st) as [res st']; now rewrite IH, emit_or_else.
Qed.

Lemma exec_for_of_cons {A} (x : A) xs f st :
  exec server (for_of (x :: xs) f) st =
  and_then (exec server (f x) st) (fun _ st' => exec server (for_of xs f) st').
Proof. simpl; apply exec_bind. Qed.

(** The requests of a run reach the endpoint one after the other: each
    answer is the one the endpoint gives in the state the previous call
    left. *)
Lemma exec_replay {A} (p : prog A) st :
  replay server (requests (trace (exec server p st))) st =
  (map snd (exchanges (trace (exec server p st))), remote (exec server p st)).
Proof.
  revert st; induction p as [a | e | code | lvl args k IH | req k IH]; intros st; simpl;
    try reflexivity.
  - apply IH.
  - destruct (server req st) as [res st'] eqn:E; simpl.
    rewrite E, IH; reflexivity.
Qed.

Lemma requests_exchanges tr : requests tr = map fst (exchanges tr).
Proof. induction tr as [| [lvl args | req res] tr IH]; simpl; congruence. Qed.

End ExecFacts.

(** *** Programs that stay off the network *)

Lemma doomed_bind {A B} (p : prog A) (f : A -> prog B) :
  doomed p -> doomed (bind p f).
Proof.
  induction p as [a | e | code | lvl args k IH | req k IH]; simpl; intros D;
    try contradiction; auto.
  destruct lvl; [contradiction | auto].
Qed.

Lemma tidy_bind {A B} (p : prog A) (f : A -> prog B) :
  tidy p -> (forall a, tidy (f a)) -> tidy (bind p f).
Proof.
  destruct p as [a | e | code | lvl args k | req k]; simpl; intros H Hf;
    try contradiction; auto.
  destruct lvl; [contradiction | now apply doomed_bind].
Qed.

Lemma tidy_read v m : tidy (read v m).
Proof. unfold read; destruct (get v m); exact I. Qed.

Lemma tidy_filter_method v keep : tidy (filter_method v keep).
Proof.
  destruct v; simpl; try exact I.
  destruct (filter_elems keep elems); exact I.
Qed.

(** A tidy program runs the same against every endpoint and leaves the
    endpoint alone. *)
Lemma doomed_run {A B B'} (p : prog A)
    (server : request -> B -> fetch_result * B)
    (server' : request -> B' -> fetch_result * B') st st' :
  doomed p ->
  trace (exec server p st) = trace (exec server' p st')
  /\ final (exec server p st) = final (exec server' p st')
  /\ remote (exec server p st) = st
  /\ exchanges (trace (exec server p st)) = []
  /\ only_errors (printed (trace (exec server p st)))
  /\ exists e, final (exec server p st) = Uncaught e.
Proof.
  induction p as [a | e | code | lvl args k IH | req k IH]; simpl; intros D;
    try contradiction.
  - repeat split; eauto. constructor.
  - destruct lvl; [contradiction |].
    destruct (IH D) as (Ht & Hf & Hr & Hx & Hl & e & He).
    repeat split; simpl; try congruence; eauto.
    constructor; auto.
Qed.

Lemma tidy_run {A B B'} (p : prog A)
    (server : request -> B -> fetch_result * B)
    (server' : request -> B' -> fetch_result * B') st st' :
  tidy p ->
  trace (exec server p st) = trace (exec server' p st')
  /\ final (exec server p st) = final (exec server' p st')
  /\ remote (exec server p st) = st
  /\ exchanges (trace (exec server p st)) = []
  /\ only_errors (printed (trace (exec server p st)))
  /\ (forall code, final (exec server p st) <> Exited code)
  /\ (forall a, final (exec server p st) = Completed a -> trace (exec server p st) = []).
Proof.
  destruct p as [a | e | code | lvl args k | req k]; intros T.
  1: { simpl; repeat split; try congruence. constructor. }
  all: destruct (doomed_run _ server server' st st' T)
         as (Ht & Hf & Hr & Hx & Hl & e' & He);
    repeat split; auto; intros; congruence.
Qed.

(** *** One create call *)

Lemma attempt_fetch env d :
  attempt env d = Fetch (request_for env d) (continuation (attempt env d)).
Proof. destruct d; reflexivity. Qed.

Ltac tidy_step :=
  match goal with
  | |- tidy (bind (read _ _) _) => apply tidy_bind; [apply tidy_read | intro]
  | |- tidy (bind (filter_method _ _) _) =>
      apply tidy_bind; [apply tidy_filter_method | intro]
  | |- tidy (bind _ _) => apply tidy_bind; [| intro]
  | |- tidy (if ?b then _ else _) => destruct b
  | |- tidy (match ?x with _ => _ end) => destruct x
  | |- tidy (read _ _) => apply tidy_read
  | |- tidy _ => exact I
  end.

Lemma tidy_continuation env d res : tidy (continuation (attempt env d) res).
Proof. destruct d; simpl; repeat tidy_step. Qed.

Section OneCall.

Context {backend : Type}.
Variable server : request -> backend -> fetch_result * backend.

Lemma settle_unfold env d res :
  settle env d res =
  emit (Fetched (request_for env d) res)
       (exec (answered res) (continuation (attempt env d) res) tt).
Proof.
  unfold settle.
  pose proof (attempt_fetch env d) as E.
  set (k := continuation (attempt env d)) in *.
  rewrite E; reflexivity.
Qed.

Lemma exec_attempt env d st :
  exec server (attempt env d) st =
  let (res, st') := server (request_for env d) st in
  {| trace := trace (settle env d res);
     final := final (settle env d res);
     remote := st' |}.
Proof.
  pose proof (attempt_fetch env d) as E.
  pose proof (tidy_continuation env d) as T.
  pose proof (settle_unfold env d) as U.
  set (k := continuation (attempt env d)) in *.
  rewrite E; simpl.
  destruct (server (request_for env d) st) as [res st'].
  rewrite U.
  destruct (tidy_run (k res) server (answered res) st' tt (T res))
    as (Ht & Hf & Hr & _).
  unfold emit; simpl; rewrite Ht, Hf, Hr; reflexivity.
Qed.

End OneCall.

(** A create call makes its one request first; whatever it prints after
    that it prints on the way to an exception; it never stops the process. *)
Lemma settle_shape env d res :
  exists prints,
    trace (settle env d res) = Fetched (request_for env d) res :: prints
    /\ exchanges prints = []
    /\ only_errors (printed prints)
    /\ (final (settle env d res) = Completed tt /\ prints = []
        \/ exists e, final (settle env d res) = Uncaught e).
Proof.
  rewrite settle_unfold.
  destruct (tidy_run (continuation (attempt env d) res)
              (answered res) (answered res) tt tt (tidy_continuation env d res))
    as (_ & _ & _ & Hx & Hl & Hne & Hc).
  eexists; split; [reflexivity |]; split; [exact Hx |]; split; [exact Hl |]; simpl.
  destruct (final (exec (answered res) (continuation (attempt env d) res) tt))
    as [[] | e | code] eqn:F.
  - left; split; [reflexivity | now apply (Hc tt)].
  - right; eauto.
  - now destruct (Hne code).
Qed.

Lemma resolves_completed env d res :
  resolves env d res = true <-> final (settle env d res) = Completed tt.
Proof.
  unfold resolves; destruct (final (settle env d res)) as [[] | e | code];
    split; congruence.
Qed.

(** *** The whole run *)

Lemma assertEnv_cases env :
  assertEnv env =
  if env_ok env then Ret tt
  else Console Err
         [Text (Str (js "Missing environment variables: "
                     ++ join (js ", ") (missing_names env)))]
         (ProcessExit 1).
Proof.
  unfold assertEnv, env_ok, missing_names, required; simpl.
  destruct (env_truthy (SHOPIFY_STORE env)),
           (env_truthy (SHOPIFY_ADMIN_ACCESS_TOKEN env)),
           (env_truthy (SHOPIFY_API_VERSION env)); reflexivity.
Qed.

Lemma exchanges_app tr tr' : exchanges (tr ++ tr') = exchanges tr ++ exchanges tr'.
Proof. induction tr as [| [lvl args | req res] tr IH]; simpl; congruence. Qed.

Lemma printed_app tr tr' : printed (tr ++ tr') = printed tr ++ printed tr'.
Proof. induction tr as [| [lvl args | req res] tr IH]; simpl; congruence. Qed.

Lemma exchanges_fetched xs : exchanges (map fetched xs) = xs.
Proof. induction xs as [| [req res] xs IH]; simpl; congruence. Qed.

Lemma printed_fetched xs : printed (map fetched xs) = [].
Proof. induction xs as [| [req res] xs IH]; simpl; congruence. Qed.

Section WholeRun.

Context {backend : Type}.
Variable server : request -> backend -> fetch_result * backend.
Variable env : environment.

Lemma loop_step d rest st :
  exec server (for_of (d :: rest) (attempt env)) st =
  let (res, st') := server (request_for env d) st in
  if resolves env d res
  then emit (Fetched (request_for env d) res)
            (exec server (for_of rest (attempt env)) st')
  else {| trace := trace (settle env d res);
          final := final (settle env d res);
          remote := st' |}.
Proof.
  rewrite exec_for_of_cons, exec_attempt.
  destruct (server (request_for env d) st) as [res st'].
  destruct (settle_shape env d res) as (prints & Ht & _ & _ & [[Hf Hp] | [e Hf]]);
    unfold resolves, and_then; simpl; rewrite Hf.
  - rewrite Ht, Hp; unfold prepend, emit; simpl; reflexivity.
  - reflexivity.
Qed.

Lemma loop_append (l1 l2 : list definition) st :
  exec server (for_of (l1 ++ l2) (attempt env)) st =
  and_then (exec server (for_of l1 (attempt env)) st)
           (fun _ st' => exec server (for_of l2 (attempt env)) st').
Proof.
  revert st; induction l1 as [| d l1 IH]; intros st.
  - simpl; unfold and_then; simpl; now rewrite prepend_nil.
  - change ((d :: l1) ++ l2) with (d :: (l1 ++ l2)).
    rewrite !loop_step.
    destruct (server (request_for env d) st) as [res st'].
    destruct (resolves env d res) eqn:R.
    + rewrite IH, emit_and_then; reflexivity.
    + apply Bool.not_true_iff_false in R.
      rewrite resolves_completed in R.
      unfold and_then; simpl.
      destruct (final (settle env d res)) as [[] | e | code]; congruence.
Qed.

(** The run of the module body once the environment check has passed:
    the seven create calls in plan order, then the confirmation or the
    catch handler. *)
Lemma script_run st :
  env_ok env = true ->
  exec server (script env) st =
  let r := exec server (for_of plan (attempt env)) st in
  match final r with
  | Completed _ =>
      {| trace := trace r ++ [Printed Log [Text (Str confirmation)]];
         final := Completed tt;
         remote := remote r |}
  | Uncaught e =>
      {| trace := trace r ++ [Printed Err [Caught e]];
         final := Exited 1;
         remote := remote r |}
  | Exited code => r
  end.
Proof.
  intros Hok. unfold script, main.
  rewrite exec_try_catch, exec_bind, assertEnv_cases, Hok.
  rewrite exec_ret_and_then, exec_bind.
  change (for_of metaobjects (createMetaobject env))
    with (for_of (map Metaobject metaobjects) (attempt env)).
  unfold plan; rewrite loop_append.
  destruct (exec server (for_of (map Metaobject metaobjects) (attempt env)) st)
    as [tr1 [[] | e | code] st1];
    unfold and_then; cbn [final trace remote]; try reflexivity.
  rewrite exec_bind.
  change (for_of metafields (createMetafield env))
    with (for_of (map Metafield metafields) (attempt env)).
  cbv beta.
  destruct (exec server (for_of (map Metafield metafields) (attempt env)) st1)
    as [tr2 [[] | e | code] st2];
    unfold and_then, or_else, prepend, console_log, console_error, process_exit;
    cbn [final trace remote exec emit bind]; try reflexivity.
  now rewrite <- !app_assoc.
Qed.

Lemma script_run_unset st :
  env_ok env = false ->
  exec server (script env) st =
  {| trace := [missing_report env]; final := Exited 1; remote := st |}.
Proof.
  intros Hok. unfold script, main.
  rewrite exec_try_catch, exec_bind, assertEnv_cases, Hok.
  reflexivity.
Qed.

End WholeRun.

(** *** The shape of a run *)

Lemma unresolved_is_last {X} (P : X -> bool) xs y pre x post :
  forallb P xs = true ->
  xs ++ [y] = pre ++ x :: post ->
  P x = false ->
  pre = xs /\ x = y /\ post = [].
Proof.
  revert pre; induction xs as [| a xs IH]; intros pre Hall E Hx; simpl in *.
  - destruct pre as [| b pre]; simpl in E.
    + inversion E; auto.
    + inversion E as [[Hb Hrest]]. destruct pre; discriminate.
  - apply andb_prop in Hall as [Ha Hall].
    destruct pre as [| b pre]; simpl in E; inversion E; subst.
    + congruence.
    + destruct (IH pre Hall H1 Hx) as (-> & -> & ->); auto.
Qed.

Lemma all_resolved_no_failure {X} (P : X -> bool) pre x post :
  forallb P (pre ++ x :: post) = true -> P x = true.
Proof.
  rewrite forallb_app; simpl; intros H.
  apply andb_prop in H as [_ H]; now apply andb_prop in H as [H _].
Qed.

Section RunShape.

Context {backend : Type}.
Variable server : request -> backend -> fetch_result * backend.
Variable env : environment.

Lemma loop_shape specs st :
  let r := exec server (for_of specs (attempt env)) st in
  exists xs,
    forallb (resolved env) xs = true /\
    ((final r = Completed tt
      /\ trace r = map fetched xs
      /\ map fst xs = map (request_for env) specs)
     \/
     (exists done d rest res e,
         specs = done ++ d :: rest
         /\ map fst xs = map (request_for env) done
         /\ trace r = map fetched xs ++ trace (settle env d res)
         /\ final r = Uncaught e
         /\ final (settle env d res) = Uncaught e)).
Proof.
  revert st; induction specs as [| d specs IH]; intros st.
  - exists []; split; [reflexivity | left]; repeat split.
  - cbv zeta. rewrite loop_step.
    destruct (server (request_for env d) st) as [res st'].
    destruct (resolves env d res) eqn:R.
    + destruct (IH st') as (xs & Hall & H).
      exists ((request_for env d, res) :: xs); split.
      { cbn [forallb]; unfold resolved at 1; cbn [fst snd variables request_for graphql_request].
        now rewrite R. }
      destruct H as [(Hf & Ht & Hm) | (done & d' & rest & res' & e & Hs & Hm & Ht & Hf & Hs')].
      * left; cbn [map fst snd fetched emit trace final remote].
        repeat split; auto; try (rewrite Ht; reflexivity); congruence.
      * right; exists (d :: done), d', rest, res', e.
        cbn [map fst snd fetched emit trace final remote app].
        repeat split; auto; try (rewrite Ht; reflexivity); congruence.
    + exists []; split; [reflexivity | right].
      destruct (settle_shape env d res) as (prints & Ht & _ & _ & [[Hf _] | [e Hf]]).
      { apply resolves_completed in Hf; congruence. }
      exists [], d, specs, res, e; cbn [map app trace final remote]; repeat split; auto.
Qed.

Lemma script_shape st :
  env_ok env = true ->
  let r := exec server (script env) st in
  exists xs,
    forallb (resolved env) xs = true /\
    ((final r = Completed tt
      /\ trace r = map fetched xs ++ [Printed Log [Text (Str confirmation)]]
      /\ map fst xs = map (request_for env) plan)
     \/
     (exists done d rest res prints e,
         plan = done ++ d :: rest
         /\ map fst xs = map (request_for env) done
         /\ trace (settle env d res) = Fetched (request_for env d) res :: prints
         /\ exchanges prints = []
         /\ only_errors (printed prints)
         /\ final (settle env d res) = Uncaught e
         /\ trace r = map fetched xs ++ Fetched (request_for env d) res :: prints
                      ++ [Printed Err [Caught e]]
         /\ final r = Exited 1)).
Proof.
  intros Hok; cbv zeta; rewrite (script_run server env st Hok); cbv zeta.
  destruct (loop_shape plan st) as (xs & Hall & H).
  exists xs; split; [exact Hall |].
  destruct H as [(Hf & Ht & Hm) | (done & d & rest & res & e & Hs & Hm & Ht & Hf & Hs')].
  - left; rewrite Hf; cbn [trace final remote]; rewrite Ht; auto.
  - right; rewrite Hf; cbn [trace final remote].
    destruct (settle_shape env d res) as (prints & Hp & Hx & Hl & _).
    exists done, d, rest, res, prints, e; repeat split; auto.
    rewrite Ht, Hp, <- app_assoc; reflexivity.
Qed.

(** The exchanges of a run, and where a run stops. *)
Lemma script_exchanges st :
  env_ok env = true ->
  let r := exec server (script env) st in
  (final r = Completed tt
   /\ forallb (resolved env) (exchanges (trace r)) = true
   /\ map fst (exchanges (trace r)) = map (request_for env) plan
   /\ printed (trace r) = [(Log, [Text (Str confirmation)])])
  \/
  (exists xs done d rest res prints e,
      exchanges (trace r) = xs ++ [(request_for env d, res)]
      /\ forallb (resolved env) xs = true
      /\ resolves env d res = false
      /\ plan = done ++ d :: rest
      /\ map fst xs = map (request_for env) done
      /\ trace (settle env d res) = Fetched (request_for env d) res :: prints
      /\ only_errors (printed prints)
      /\ final (settle env d res) = Uncaught e
      /\ printed (trace r) = printed prints ++ [(Err, [Caught e])]
      /\ final r = Exited 1).
Proof.
  intros Hok; cbv zeta.
  destruct (script_shape st Hok)
    as (xs & Hall & [(Hf & Ht & Hm)
                    | (done & d & rest & res & prints & e & Hs & Hm & Hp & Hx & Hl & Hu & Ht & Hf)]).
  - left; rewrite Ht, exchanges_app, printed_app, exchanges_fetched, printed_fetched.
    cbn [exchanges printed app]; rewrite app_nil_r; auto.
  - right; exists xs, done, d, rest, res, prints, e.
    rewrite Ht.
    change (Fetched (request_for env d) res :: prints ++ [Printed Err [Caught e]])
      with ([fetched (request_for env d, res)] ++ prints ++ [Printed Err [Caught e]]).
    rewrite !exchanges_app, !printed_app, exchanges_fetched, printed_fetched, Hx.
    cbn [exchanges printed app fetched fst snd].
    repeat split; auto.
    unfold resolves; now rewrite Hu.
Qed.

End RunShape.

(* ================================================================== *)
(** ** One create call, by the kind of answer *)

Ltac settle_unfold_tac :=
  unfold settle;
  cbn [attempt createMetaobject createMetafield shopifyGraphQL bind exec
       answered emit].

Ltac settle_cbn :=
  cbn [negb bind exec emit trace final remote read get member_name
       result_member truthy filter_method console_error].

Lemma settle_transport env d res :
  ok res = false ->
  settle env d (Resolved res) =
  {| trace := [Fetched (request_for env d) (Resolved res)];
     final := Uncaught (transport_error res);
     remote := tt |}.
Proof.
  intros H; destruct d; settle_unfold_tac; rewrite H; settle_cbn; reflexivity.
Qed.

Lemma settle_query_errors env d res top :
  ok res = true ->
  body res = Some (VObj top) ->
  truthy (lookup (js "errors") top) = true ->
  settle env d (Resolved res) =
  {| trace := [Fetched (request_for env d) (Resolved res)];
     final := Uncaught (Error (Stringify (lookup (js "errors") top) 0));
     remote := tt |}.
Proof.
  intros H Hb He; destruct d; settle_unfold_tac; rewrite H, Hb; settle_cbn;
    rewrite He; reflexivity.
Qed.

Lemma settle_nullish_data env d res top :
  ok res = true ->
  body res = Some (VObj top) ->
  truthy (lookup (js "errors") top) = false ->
  lookup (js "data") top = VUndefined \/ lookup (js "data") top = VNull ->
  settle env d (Resolved res) =
  {| trace := [Fetched (request_for env d) (Resolved res)];
     final := Uncaught (TypeError (CannotRead (lookup (js "data") top)
                                     (member_name (result_member d))));
     remote := tt |}.
Proof.
  intros H Hb He Hd; destruct d; settle_unfold_tac; rewrite H, Hb; settle_cbn;
    rewrite He; destruct Hd as [-> | ->]; reflexivity.
Qed.

Lemma settle_nullish_result env d res top data :
  ok res = true ->
  body res = Some (VObj top) ->
  truthy (lookup (js "errors") top) = false ->
  lookup (js "data") top = VObj data ->
  lookup (member_name (result_member d)) data = VUndefined
  \/ lookup (member_name (result_member d)) data = VNull ->
  settle env d (Resolved res) =
  {| trace := [Fetched (request_for env d) (Resolved res)];
     final := Uncaught (TypeError (CannotRead
                                     (lookup (member_name (result_member d)) data)
                                     (js "userErrors")));
     remote := tt |}.
Proof.
  intros H Hb He Hd Hr; destruct d; settle_unfold_tac; rewrite H, Hb; settle_cbn;
    rewrite He, Hd; settle_cbn; cbn [result_member member_name] in Hr;
    destruct Hr as [-> | ->]; reflexivity.
Qed.

(** *** The filter over well-formed user errors *)

Lemma filter_elems_messages re errs msgs :
  map user_error_message errs = map Some msgs ->
  filter_elems (not_dupe re) errs =
  inr (filter (fun err => negb (is_dupe_error re err)) errs).
Proof.
  revert msgs; induction errs as [| err errs IH]; intros [| m msgs] E;
    try discriminate; [reflexivity |].
  cbn [map] in E; injection E as Em E.
  cbn [filter_elems filter]; rewrite (IH msgs E).
  unfold not_dupe, is_dupe_error.
  destruct err; try discriminate.
  cbn [user_error_message] in Em |- *; cbn [get member_name].
  destruct (lookup (js "message") members); try discriminate.
  injection Em as ->; reflexivity.
Qed.

Lemma forallb_messages re errs msgs :
  map user_error_message errs = map Some msgs ->
  forallb (is_dupe_error re) errs = forallb (RegExp.test re) msgs.
Proof.
  revert msgs; induction errs as [| err errs IH]; intros [| m msgs] E;
    try discriminate; [reflexivity |].
  cbn [map] in E; injection E as Em E.
  cbn [forallb]; rewrite (IH msgs E); unfold is_dupe_error; now rewrite Em.
Qed.

Lemma filter_negb_nil {X} (P : X -> bool) l :
  filter (fun x => negb (P x)) l = [] <-> forallb P l = true.
Proof.
  induction l as [| x l IH]; cbn [filter forallb]; [tauto |].
  destruct (P x); cbn [negb andb]; [exact IH | split; discriminate].
Qed.

(** The create call on a success response that carries user errors. *)
Lemma settle_user_errors env d res top data result err errs :
  ok res = true ->
  body res = Some (VObj top) ->
  truthy (lookup (js "errors") top) = false ->
  lookup (js "data") top = VObj data ->
  lookup (member_name (result_member d)) data = VObj result ->
  lookup (js "userErrors") result = VArr (err :: errs) ->
  forall kept,
    filter_elems (not_dupe (dupe_re d)) (err :: errs) = inr kept ->
    settle env d (Resolved res) =
    match kept with
    | [] =>
        {| trace := [Fetched (request_for env d) (Resolved res)];
           final := Completed tt;
           remote := tt |}
    | _ =>
        {| trace := [ Fetched (request_for env d) (Resolved res);
                      Printed Err [ Text (Str (report_heading d));
                                    Text (Stringify (VArr kept) 2) ] ];
           final := Uncaught (creation_failed d);
           remote := tt |}
    end.
Proof.
  intros H Hb He Hd Hr Hu kept Hk; destruct d; settle_unfold_tac;
    cbn [result_member member_name dupe_re] in Hr, Hk;
    rewrite H, Hb; settle_cbn; rewrite He, Hd; settle_cbn; rewrite Hr; settle_cbn;
    rewrite Hu; settle_cbn; cbn [List.length Z.of_nat Z.eqb]; settle_cbn;
    rewrite Hk; settle_cbn; destruct kept; reflexivity.
Qed.

(* ================================================================== *)
(** ** The environment check *)

Lemma env_truthy_false x : env_truthy x = false <-> x = None \/ x = Some [].
Proof.
  destruct x as [[| c s] |]; cbn; split; intros H; auto; try discriminate;
    destruct H; discriminate.
Qed.

Lemma missing_names_spec env name :
  In name (missing_names env) <->
  exists var, In (name, var) required /\ (var env = None \/ var env = Some []).
Proof.
  unfold missing_names; rewrite in_map_iff; split.
  - intros ([n var] & <- & H); apply filter_In in H as [Hin Hf].
    exists var; split; [exact Hin |].
    apply env_truthy_false; cbn [snd] in Hf; now destruct (env_truthy (var env)).
  - intros (var & Hin & Hv); exists (name, var); split; [reflexivity |].
    apply filter_In; split; [exact Hin |].
    apply env_truthy_false in Hv; cbn [snd]; now rewrite Hv.
Qed.

Lemma env_ok_false env :
  env_ok env = false <->
  exists name var, In (name, var) required /\ env_truthy (var env) = false.
Proof.
  unfold env_ok, required; split.
  - intros H.
    destruct (env_truthy (SHOPIFY_STORE env)) eqn:E1;
      [| exists (js "SHOPIFY_STORE"), SHOPIFY_STORE; cbn [In]; auto].
    destruct (env_truthy (SHOPIFY_ADMIN_ACCESS_TOKEN env)) eqn:E2;
      [| exists (js "SHOPIFY_ADMIN_ACCESS_TOKEN"), SHOPIFY_ADMIN_ACCESS_TOKEN;
         cbn [In]; auto].
    destruct (env_truthy (SHOPIFY_API_VERSION env)) eqn:E3;
      [discriminate
      | exists (js "SHOPIFY_API_VERSION"), SHOPIFY_API_VERSION; cbn [In]; auto].
  - intros (name & var & Hin & Hf); cbn [In] in Hin.
    destruct Hin as [E | [E | [E | []]]]; injection E as _ <-; rewrite Hf;
      rewrite ?andb_false_r; reflexivity.
Qed.

Lemma env_truthy_drop_empty x : env_truthy (drop_empty x) = env_truthy x.
Proof. destruct x as [[| c s] |]; reflexivity. Qed.

Lemma env_ok_without_empty env : env_ok env = true -> without_empty env = env.
Proof.
  unfold env_ok, without_empty; intros H.
  apply andb_prop in H as [H H3]; apply andb_prop in H as [H1 H2].
  destruct env as [[[| c1 s1] |] [[| c2 s2] |] [[| c3 s3] |]]; try discriminate;
    reflexivity.
Qed.

(** C3: when at least one of [SHOPIFY_STORE], [SHOPIFY_ADMIN_ACCESS_TOKEN],
    [SHOPIFY_API_VERSION] is absent, the run prints exactly one line to the
    error console, "Missing environment variables: " followed by the names
    of the required variables that are absent (or empty), in checking order
    and separated by ", "; every absent variable is named; the process
    exits with code 1; no request is sent and the endpoint is untouched. *)
Theorem missing_variables_abort {backend : Type}
    (server : request -> backend -> fetch_result * backend)
    (env : environment) (st : backend) :
  SHOPIFY_STORE env = None
  \/ SHOPIFY_ADMIN_ACCESS_TOKEN env = None
  \/ SHOPIFY_API_VERSION env = None ->
  let r := exec server (script env) st in
  trace r =
    [Printed Err
       [Text (Str (js "Missing environment variables: "
                   ++ join (js ", ") (missing_names env)))]]
  /\ (forall name var,
        In (name, var) required -> var env = None -> In name (missing_names env))
  /\ (forall name,
        In name (missing_names env) ->
        exists var, In (name, var) required /\ (var env = None \/ var env = Some []))
  /\ exit_code (final r) = 1
  /\ requests (trace r) = []
  /\ remote r = st.
Proof.
  intros H; cbv zeta.
  assert (Hok : env_ok env = false).
  { apply env_ok_false.
    destruct H as [H | [H | H]];
      [ exists (js "SHOPIFY_STORE"), SHOPIFY_STORE
      | exists (js "SHOPIFY_ADMIN_ACCESS_TOKEN"), SHOPIFY_ADMIN_ACCESS_TOKEN
      | exists (js "SHOPIFY_API_VERSION"), SHOPIFY_API_VERSION ];
      rewrite H; unfold required; cbn [In]; auto. }
  rewrite (script_run_unset server env st Hok); cbn [trace final remote exit_code].
  repeat split.
  - intros name var Hin Hv; apply missing_names_spec; eauto.
  - intros name Hin; now apply missing_names_spec.
Qed.

Lemma missing_variables_abort_witness :
  let env := {| SHOPIFY_STORE := Some (js "getqflex");
                SHOPIFY_ADMIN_ACCESS_TOKEN := None;
                SHOPIFY_API_VERSION := None |} in
  let r := exec Sample.always_duplicate (script env) tt in
  trace r =
    [Printed Err
       [Text (Str (js "Missing environment variables: SHOPIFY_ADMIN_ACCESS_TOKEN, SHOPIFY_API_VERSION"))]]
  /\ exit_code (final r) = 1
  /\ requests (trace r) = [].
Proof.
  cbv zeta.
  destruct (missing_variables_abort Sample.always_duplicate
              {| SHOPIFY_STORE := Some (js "getqflex");
                 SHOPIFY_ADMIN_ACCESS_TOKEN := None;
                 SHOPIFY_API_VERSION := None |} tt
              (or_intror (or_introl eq_refl)))
    as (Ht & _ & _ & Hc & Hr & _).
  split; [exact Ht | split; [exact Hc | exact Hr]].
Defined.

(** C9: a required variable set to the empty string counts as missing: its
    name is in the report, the process exits with code 1 and sends no
    request; and a run cannot tell an empty variable from an absent one
    (the run is the same with every empty variable removed from the
    environment). *)
Theorem empty_variable_is_missing {backend : Type}
    (server : request -> backend -> fetch_result * backend)
    (env : environment) (st : backend) (name : jsstring)
    (var : environment -> option jsstring) :
  In (name, var) required ->
  var env = Some [] ->
  let r := exec server (script env) st in
  In name (missing_names env)
  /\ trace r =
       [Printed Err
          [Text (Str (js "Missing environment variables: "
                      ++ join (js ", ") (missing_names env)))]]
  /\ exit_code (final r) = 1
  /\ requests (trace r) = []
  /\ remote r = st
  /\ r = exec server (script (without_empty env)) st.
Proof.
  intros Hin Hv; cbv zeta.
  assert (Hok : env_ok env = false).
  { apply env_ok_false; exists name, var; split; [exact Hin | now rewrite Hv]. }
  assert (Hok' : env_ok (without_empty env) = false).
  { unfold env_ok, without_empty in *; cbn [SHOPIFY_STORE SHOPIFY_ADMIN_ACCESS_TOKEN
      SHOPIFY_API_VERSION]; now rewrite !env_truthy_drop_empty. }
  rewrite (script_run_unset server env st Hok),
          (script_run_unset server _ st Hok'); cbn [trace final remote exit_code].
  repeat split.
  - apply missing_names_spec; eauto.
  - unfold missing_report, missing_names, required, without_empty;
      cbn [filter snd SHOPIFY_STORE SHOPIFY_ADMIN_ACCESS_TOKEN SHOPIFY_API_VERSION];
      now rewrite !env_truthy_drop_empty.
Qed.

Lemma empty_variable_is_missing_witness :
  let env := {| SHOPIFY_STORE := Some (js "getqflex");
                SHOPIFY_ADMIN_ACCESS_TOKEN := Some [];
                SHOPIFY_API_VERSION := Some (js "2024-07") |} in
  let r := exec Sample.always_duplicate (script env) tt in
  trace r =
    [Printed Err
       [Text (Str (js "Missing environment variables: SHOPIFY_ADMIN_ACCESS_TOKEN"))]]
  /\ exit_code (final r) = 1
  /\ requests (trace r) = [].
Proof.
  cbv zeta.
  destruct (empty_variable_is_missing Sample.always_duplicate
              {| SHOPIFY_STORE := Some (js "getqflex");
                 SHOPIFY_ADMIN_ACCESS_TOKEN := Some [];
                 SHOPIFY_API_VERSION := Some (js "2024-07") |} tt
              (js "SHOPIFY_ADMIN_ACCESS_TOKEN") SHOPIFY_ADMIN_ACCESS_TOKEN
              (or_intror (or_introl eq_refl)) eq_refl)
    as (_ & Ht & Hc & Hr & _).
  split; [exact Ht | split; [exact Hc | exact Hr]].
Defined.

(* ================================================================== *)
(** ** Where a run stops *)

Section Abort.

Context {backend : Type}.
Variable server : request -> backend -> fetch_result * backend.
Variable env : environment.

(** A create call that throws is the last call of the run: the catch
    handler prints the exception and exits with code 1. *)
Lemma run_aborts_at st pre x post e :
  env_ok env = true ->
  let r := exec server (script env) st in
  exchanges (trace r) = pre ++ x :: post ->
  final (settle env (variables (fst x)) (snd x)) = Uncaught e ->
  post = []
  /\ forallb (resolved env) pre = true
  /\ final r = Exited 1
  /\ printed (trace r) =
       printed (trace (settle env (variables (fst x)) (snd x)))
       ++ [(Err, [Caught e])].
Proof.
  intros Hok r Hex Hu.
  assert (Hx : resolved env x = false).
  { unfold resolved, resolves; now rewrite Hu. }
  destruct (script_exchanges server env st Hok)
    as [(Hf & Hall & _)
       | (xs & done & d & rest & res & prints & e' & Hxs & Hall & Hr & _ & _ & Ht & _ & Hu' & Hp & Hf)];
    fold r in Hf, Hall.
  - rewrite Hex in Hall.
    apply all_resolved_no_failure in Hall; congruence.
  - fold r in Hxs, Hp. rewrite Hex in Hxs; symmetry in Hxs.
    destruct (unresolved_is_last _ _ _ _ _ _ Hall Hxs Hx) as (-> & -> & ->).
    cbn [fst snd variables request_for graphql_request] in Hu |- *.
    change (graphql_request env (mutation_of d) d) with (request_for env d) in *.
    repeat split; auto.
    rewrite Hp, Ht; cbn [printed]; congruence.
Qed.

End Abort.

(* ================================================================== *)
(** ** The catalog *)

(** C4: the catalog of [main] is the three metaobject types [badge],
    [testimonial], [press_logo] and the four product metafields
    [hero_eyebrow], [review_count], [avg_rating], [usp_pills] with the
    documented types, all in namespace [qf] with owner type [PRODUCT]; the
    definitions a run sends are an initial part of that list, in that
    order, and a run that exits with code 0 has sent all seven. *)
Theorem catalog_contents :
  map mo_type metaobjects = [js "badge"; js "testimonial"; js "press_logo"]
  /\ map (fun d => (mf_namespace d, mf_key d, mf_type d, mf_ownerType d)) metafields =
     [ (js "qf", js "hero_eyebrow", js "single_line_text_field", js "PRODUCT");
       (js "qf", js "review_count", js "number_integer", js "PRODUCT");
       (js "qf", js "avg_rating", js "number_decimal", js "PRODUCT");
       (js "qf", js "usp_pills", js "list.single_line_text_field", js "PRODUCT") ]
  /\ forall (backend : Type) (server : request -> backend -> fetch_result * backend)
            (env : environment) (st : backend),
       let r := exec server (script env) st in
       let sent := map variables (requests (trace r)) in
       sent = firstn (List.length sent)
                (map Metaobject metaobjects ++ map Metafield metafields)
       /\ (exit_code (final r) = 0 ->
           sent = map Metaobject metaobjects ++ map Metafield metafields).
Proof.
  split; [reflexivity | split; [reflexivity |]].
  intros backend server env st; cbv zeta.
  fold plan.
  assert (Hv : forall l, map variables (map (request_for env) l) = l).
  { induction l as [| d l IH]; cbn [map]; [reflexivity |].
    rewrite IH; reflexivity. }
  destruct (env_ok env) eqn:Hok.
  - rewrite requests_exchanges.
    destruct (script_exchanges server env st Hok)
      as [(Hf & _ & Hm & _)
         | (xs & done & d & rest & res & prints & e & Hxs & _ & _ & Hplan & Hm & _ & _ & _ & _ & Hf)].
    + rewrite Hm, Hv, firstn_all; auto.
    + rewrite Hxs, Hf, map_app, Hm; cbn [map fst exit_code].
      change [request_for env d] with (map (request_for env) [d]).
      rewrite <- map_app, Hv, Hplan.
      split; [| discriminate].
      replace (done ++ d :: rest) with ((done ++ [d]) ++ rest)
        by (rewrite <- app_assoc; reflexivity).
      rewrite firstn_app, firstn_all, Nat.sub_diag; cbn [firstn].
      now rewrite app_nil_r.
  - rewrite (script_run_unset server env st Hok); cbn [trace final exit_code].
    split; [reflexivity | discriminate].
Qed.

Lemma catalog_contents_witness :
  let r := exec Sample.always_duplicate (script Sample.env) tt in
  exit_code (final r) = 0
  /\ map variables (requests (trace r)) =
     map Metaobject metaobjects ++ map Metafield metafields.
Proof.
  cbv zeta.
  assert (H : exit_code (final (exec Sample.always_duplicate (script Sample.env) tt)) = 0)
    by (vm_compute; reflexivity).
  split; [exact H |].
  exact (proj2 (proj2 (proj2 catalog_contents) unit Sample.always_duplicate Sample.env tt) H).
Defined.

(* ================================================================== *)
(** ** User errors *)

(** C1: on a success response whose mutation result carries a non-empty
    [userErrors] list of [{ field, message }] objects, a create call returns
    exactly when every message matches the pattern of its kind
    ([/type.*already exists/i] for [createMetaobject],
    [/definition.*already exists/i] for [createMetafield]), and then prints
    nothing; otherwise it prints to the error console its heading and the
    user errors whose message does not match, whole, and throws its
    "creation failed" error. *)
Theorem user_errors_verdict (env : environment) (d : definition) (res : response)
    (top data result : list (jsstring * value)) (errs : list value)
    (msgs : list jsstring) :
  ok res = true ->
  body res = Some (VObj top) ->
  truthy (lookup (js "errors") top) = false ->
  lookup (js "data") top = VObj data ->
  lookup (member_name (result_member d)) data = VObj result ->
  lookup (js "userErrors") result = VArr errs ->
  errs <> [] ->
  map user_error_message errs = map Some msgs ->
  let s := exec (answered (Resolved res)) (attempt env d) tt in
  let rejected := filter (fun err => negb (is_dupe_error (dupe_re d) err)) errs in
  (final s = Completed tt <-> forallb (RegExp.test (dupe_re d)) msgs = true)
  /\ (forallb (RegExp.test (dupe_re d)) msgs = true ->
      trace s = [Fetched (request_for env d) (Resolved res)])
  /\ (forallb (RegExp.test (dupe_re d)) msgs = false ->
      rejected <> []
      /\ trace s = [ Fetched (request_for env d) (Resolved res);
                     Printed Err [ Text (Str (report_heading d));
                                   Text (Stringify (VArr rejected) 2) ] ]
      /\ final s = Uncaught (creation_failed d)).
Proof.
  intros Hok Hb He Hd Hr Hu Hne Hm; cbv zeta.
  fold (settle env d (Resolved res)).
  destruct errs as [| err errs']; [congruence |].
  pose proof (filter_elems_messages (dupe_re d) _ _ Hm) as Hk.
  rewrite (settle_user_errors env d res top data result err errs'
             Hok Hb He Hd Hr Hu _ Hk).
  rewrite <- (forallb_messages (dupe_re d) _ _ Hm).
  pose proof (filter_negb_nil (is_dupe_error (dupe_re d)) (err :: errs')) as Hiff.
  destruct (filter (fun e => negb (is_dupe_error (dupe_re d) e)) (err :: errs'))
    as [| k kept] eqn:F; cbn [trace final].
  - assert (Hall : forallb (is_dupe_error (dupe_re d)) (err :: errs') = true)
      by (now apply Hiff).
    rewrite Hall; split; [tauto |]; split; [reflexivity | discriminate].
  - assert (Hall : forallb (is_dupe_error (dupe_re d)) (err :: errs') = false).
    { apply not_true_iff_false; intros H; apply Hiff in H; discriminate. }
    rewrite Hall; split; [split; discriminate |]; split; [discriminate |].
    intros _; split; [discriminate | split; reflexivity].
Qed.

Lemma user_errors_verdict_witness :
  let errs := [ Sample.user_error "type" "Type already exists";
                Sample.user_error "name" "Name is too long" ] in
  let result := [ (js "userErrors", VArr errs) ] in
  let data := [ (js "metaobjectDefinitionCreate", VObj result) ] in
  let top := [ (js "data", VObj data) ] in
  let res := {| status := 200; statusText := js "OK"; body := Some (VObj top) |} in
  let d := Metaobject {| mo_name := js "Badge"; mo_type := js "badge";
                         mo_fieldDefinitions := [] |} in
  let s := exec (answered (Resolved res)) (attempt Sample.env d) tt in
  trace s = [ Fetched (request_for Sample.env d) (Resolved res);
              Printed Err [ Text (Str (js "Metaobject badge creation errors:"));
                            Text (Stringify
                                    (VArr [Sample.user_error "name" "Name is too long"])
                                    2) ] ]
  /\ final s = Uncaught (Error (Str (js "Metaobject creation failed"))).
Proof.
  intros errs result data top res d; cbv zeta.
  refine (proj2 (proj2 (proj2
    (user_errors_verdict Sample.env d res top data result errs
       [js "Type already exists"; js "Name is too long"]
       eq_refl eq_refl eq_refl eq_refl eq_refl eq_refl _ eq_refl)) eq_refl)).
  discriminate.
Defined.

(* ================================================================== *)
(** ** Transport errors, query errors, shapeless responses *)

(** C5: for a response whose status is not a success status,
    [shopifyGraphQL] throws "GraphQL request failed: <status> <statusText>"
    whatever the body is (it is never read: the outcome does not depend on
    it, not even on whether it parses); so a create call throws that error
    and prints nothing, even when the body lists only "already exists" user
    errors; and in a run such an exchange is the last one: the catch
    handler prints the error and the process exits with code 1. *)
Theorem transport_error_aborts (env : environment) (res : response) :
  ok res = false ->
  (forall query d,
      final (exec (answered (Resolved res)) (shopifyGraphQL env query d) tt) =
      Uncaught (Error (Str (js "GraphQL request failed: "
                            ++ N_to_js (status res) ++ js " " ++ statusText res))))
  /\ (forall d,
        let s := exec (answered (Resolved res)) (attempt env d) tt in
        trace s = [Fetched (request_for env d) (Resolved res)]
        /\ final s = Uncaught (transport_error res))
  /\ (forall (backend : Type) (server : request -> backend -> fetch_result * backend)
             (st : backend) pre req post,
        env_ok env = true ->
        let r := exec server (script env) st in
        exchanges (trace r) = pre ++ (req, Resolved res) :: post ->
        post = []
        /\ printed (trace r) = [(Err, [Caught (transport_error res)])]
        /\ exit_code (final r) = 1).
Proof.
  intros H; split; [| split].
  - intros query d; cbn [shopifyGraphQL exec answered emit final].
    rewrite H; reflexivity.
  - intros d; cbv zeta; fold (settle env d (Resolved res)).
    rewrite (settle_transport env d res H); auto.
  - intros backend server st pre req post Hok r Hex.
    pose proof (settle_transport env (variables req) res H) as Hs.
    destruct (run_aborts_at server env st pre (req, Resolved res) post
                (transport_error res) Hok Hex) as (Hp & _ & Hf & Hpr).
    { cbn [fst snd]; rewrite Hs; reflexivity. }
    cbn [fst snd] in Hpr; rewrite Hs in Hpr; cbn [trace printed app] in Hpr.
    fold r in Hf, Hpr; rewrite Hf; auto.
Qed.

Lemma transport_error_aborts_witness :
  let res := {| status := 500; statusText := js "Internal Server Error";
                body := Some (VObj [ (js "data",
                          VObj [ (js "metaobjectDefinitionCreate",
                            VObj [ (js "userErrors",
                              VArr [Sample.user_error "type" "Type already exists"]) ]) ]) ]) |} in
  let r := exec Sample.scripted (script Sample.env) [Resolved res] in
  printed (trace r) =
    [(Err, [Caught (Error (Str (js "GraphQL request failed: 500 Internal Server Error")))])]
  /\ exit_code (final r) = 1.
Proof.
  intros res; cbv zeta.
  refine (proj2 (proj2 (proj2
    (transport_error_aborts Sample.env res eq_refl))
    (list fetch_result) Sample.scripted [Resolved res] []
    (request_for Sample.env (Metaobject (hd (Build_metaobject_definition [] [] []) metaobjects)))
    [] eq_refl _)).
  vm_compute; reflexivity.
Defined.

(** C6: for a success response whose JSON body has a top-level [errors]
    array, a create call of either kind throws an error whose message is
    the serialized [errors], prints nothing, and does so whatever [data]
    and its [userErrors] are; in a run such an exchange is the last one:
    the catch handler prints the error and the process exits with
    code 1. *)
Theorem query_errors_abort (env : environment) (res : response)
    (top : list (jsstring * value)) (es : list value) :
  ok res = true ->
  body res = Some (VObj top) ->
  lookup (js "errors") top = VArr es ->
  (forall d,
      let s := exec (answered (Resolved res)) (attempt env d) tt in
      trace s = [Fetched (request_for env d) (Resolved res)]
      /\ final s = Uncaught (Error (Stringify (VArr es) 0)))
  /\ (forall (backend : Type) (server : request -> backend -> fetch_result * backend)
             (st : backend) pre req post,
        env_ok env = true ->
        let r := exec server (script env) st in
        exchanges (trace r) = pre ++ (req, Resolved res) :: post ->
        post = []
        /\ printed (trace r) = [(Err, [Caught (Error (Stringify (VArr es) 0))])]
        /\ exit_code (final r) = 1).
Proof.
  intros H Hb He.
  assert (Hs : forall d,
             settle env d (Resolved res) =
             {| trace := [Fetched (request_for env d) (Resolved res)];
                final := Uncaught (Error (Stringify (VArr es) 0));
                remote := tt |}).
  { intros d; rewrite (settle_query_errors env d res top H Hb);
      rewrite He; reflexivity. }
  split.
  - intros d; cbv zeta; fold (settle env d (Resolved res)); rewrite Hs; auto.
  - intros backend server st pre req post Hok r Hex.
    destruct (run_aborts_at server env st pre (req, Resolved res) post
                (Error (Stringify (VArr es) 0)) Hok Hex) as (Hp & _ & Hf & Hpr).
    { cbn [fst snd]; rewrite Hs; reflexivity. }
    cbn [fst snd] in Hpr; rewrite Hs in Hpr; cbn [trace printed app] in Hpr.
    fold r in Hf, Hpr; rewrite Hf; auto.
Qed.

Lemma query_errors_abort_witness :
  let es := [VObj [(js "message", VStr (js "Throttled"))]] in
  let top := [ (js "errors", VArr es);
               (js "data", VObj [ (js "metaobjectDefinitionCreate",
                            VObj [ (js "userErrors",
                              VArr [Sample.user_error "type" "Type already exists"]) ]) ]) ] in
  let res := {| status := 200; statusText := js "OK"; body := Some (VObj top) |} in
  let r := exec Sample.scripted (script Sample.env) [Resolved res] in
  printed (trace r) = [(Err, [Caught (Error (Stringify (VArr es) 0))])]
  /\ exit_code (final r) = 1.
Proof.
  intros es top res; cbv zeta.
  refine (proj2 (proj2
    (query_errors_abort Sample.env res top es eq_refl eq_refl eq_refl)
    (list fetch_result) Sample.scripted [Resolved res] []
    (request_for Sample.env (Metaobject (hd (Build_metaobject_definition [] [] []) metaobjects)))
    [] eq_refl _)).
  vm_compute; reflexivity.
Defined.

(** C10: for a success response whose JSON body has neither [errors] nor
    [data], or whose [data] has no result for the mutation, a create call
    of either kind reads a member of [undefined]: it ends with a type
    error, not with one of the errors the script constructs, and prints
    nothing; in a run the catch handler prints the type error and the
    process exits with code 1. *)
Theorem shapeless_response_faults (env : environment) (d : definition)
    (res : response) (top : list (jsstring * value)) :
  ok res = true ->
  body res = Some (VObj top) ->
  lookup (js "errors") top = VUndefined ->
  lookup (js "data") top = VUndefined
  \/ (exists data,
         lookup (js "data") top = VObj data
         /\ lookup (member_name (result_member d)) data = VUndefined) ->
  exists name,
    (name = member_name (result_member d) \/ name = js "userErrors")
    /\ (let s := exec (answered (Resolved res)) (attempt env d) tt in
        trace s = [Fetched (request_for env d) (Resolved res)]
        /\ final s = Uncaught (TypeError (CannotRead VUndefined name)))
    /\ (forall (backend : Type) (server : request -> backend -> fetch_result * backend)
               (st : backend) pre post,
          env_ok env = true ->
          let r := exec server (script env) st in
          exchanges (trace r) = pre ++ (request_for env d, Resolved res) :: post ->
          post = []
          /\ printed (trace r) = [(Err, [Caught (TypeError (CannotRead VUndefined name))])]
          /\ exit_code (final r) = 1).
Proof.
  intros H Hb He Hd.
  assert (Het : truthy (lookup (js "errors") top) = false) by (now rewrite He).
  assert (Hs : exists name,
             (name = member_name (result_member d) \/ name = js "userErrors")
             /\ settle env d (Resolved res) =
                {| trace := [Fetched (request_for env d) (Resolved res)];
                   final := Uncaught (TypeError (CannotRead VUndefined name));
                   remote := tt |}).
  { destruct Hd as [Hd | (data & Hd & Hr)].
    - exists (member_name (result_member d)); split; [now left |].
      rewrite (settle_nullish_data env d res top H Hb Het (or_introl Hd)).
      now rewrite Hd.
    - exists (js "userErrors"); split; [now right |].
      rewrite (settle_nullish_result env d res top data H Hb Het Hd (or_introl Hr)).
      now rewrite Hr. }
  destruct Hs as (name & Hname & Hs).
  exists name; split; [exact Hname | split].
  - cbv zeta; fold (settle env d (Resolved res)); rewrite Hs; auto.
  - intros backend server st pre post Hok r Hex.
    destruct (run_aborts_at server env st pre (request_for env d, Resolved res) post
                (TypeError (CannotRead VUndefined name)) Hok Hex) as (Hp & _ & Hf & Hpr).
    { cbn [fst snd variables request_for graphql_request].
      change (graphql_request env (mutation_of d) d) with (request_for env d).
      fold (request_for env d). rewrite Hs; reflexivity. }
    cbn [fst snd variables request_for graphql_request] in Hpr.
    rewrite Hs in Hpr; cbn [trace printed app] in Hpr.
    fold r in Hf, Hpr; rewrite Hf; auto.
Qed.

Lemma shapeless_response_faults_witness :
  let res := {| status := 200; statusText := js "OK"; body := Some (VObj []) |} in
  let d := Metafield (hd (Build_metafield_definition [] [] [] [] [] []) metafields) in
  let s := exec (answered (Resolved res)) (attempt Sample.env d) tt in
  exists name,
    (name = js "metafieldDefinitionCreate" \/ name = js "userErrors")
    /\ final s = Uncaught (TypeError (CannotRead VUndefined name)).
Proof.
  intros res d; cbv zeta.
  destruct (shapeless_response_faults Sample.env d res [] eq_refl eq_refl eq_refl
              (or_introl eq_refl)) as (name & Hname & Hs & _).
  exists name; split; [exact Hname | exact (proj2 Hs)].
Defined.

(* ================================================================== *)
(** ** Order of the calls and short-circuiting *)

Lemma unresolved_throws env d res :
  resolves env d res = false -> exists e, final (settle env d res) = Uncaught e.
Proof.
  intros H.
  destruct (settle_shape env d res) as (prints & _ & _ & _ & [[Hf _] | He]); auto.
  apply resolves_completed in Hf; congruence.
Qed.

Lemma metaobjects_first (mos : list metaobject_definition)
    (mfs : list metafield_definition) done mo rest :
  map Metaobject mos ++ map Metafield mfs = done ++ Metaobject mo :: rest ->
  forall d, In d done -> exists mo', d = Metaobject mo'.
Proof.
  revert done; induction mos as [| a mos IH]; intros done E d Hin.
  - exfalso.
    assert (Hmo : In (Metaobject mo) (map Metafield mfs)).
    { cbn [map app] in E; rewrite E; apply in_or_app; right; now left. }
    apply in_map_iff in Hmo as (mf & Hmf & _); discriminate.
  - destruct done as [| b done]; [destruct Hin |].
    cbn [map app] in E; injection E as Hb E.
    destruct Hin as [<- | Hin]; [eauto | eapply IH; eauto].
Qed.

Lemma map_variables_requests env l : map variables (map (request_for env) l) = l.
Proof. induction l as [| d l IH]; cbn [map]; [reflexivity | now rewrite IH]. Qed.

Lemma firstn_length_prefix {X} (l1 l2 : list X) :
  firstn (List.length l1) (l1 ++ l2) = l1.
Proof.
  rewrite firstn_app, firstn_all, Nat.sub_diag; cbn [firstn]; apply app_nil_r.
Qed.

(** C2: with the three variables present, the requests of a run are an
    initial part of the seven planned requests in plan order (the three
    metaobject specs, then the four metafield specs); they reach the
    endpoint one after the other, each answered before the next is sent;
    a create call that throws is the last call of the run and the process
    exits with code 1, so when a metaobject spec fails no metafield request
    is sent; the run exits with code 0 exactly when no call threw, and then
    all seven were made. *)
Theorem sequential_short_circuit {backend : Type}
    (server : request -> backend -> fetch_result * backend)
    (env : environment) (st : backend) :
  env_ok env = true ->
  let r := exec server (script env) st in
  let calls := exchanges (trace r) in
  map fst calls =
    firstn (List.length calls)
      (map (request_for env) (map Metaobject metaobjects ++ map Metafield metafields))
  /\ replay server (map fst calls) st = (map snd calls, remote r)
  /\ (forall pre x post,
        calls = pre ++ x :: post -> resolved env x = false ->
        post = [] /\ forallb (resolved env) pre = true /\ exit_code (final r) = 1)
  /\ (forall pre mo res post,
        calls = pre ++ (request_for env (Metaobject mo), res) :: post ->
        resolves env (Metaobject mo) res = false ->
        forall req, In req (requests (trace r)) ->
                    exists mo', variables req = Metaobject mo')
  /\ (exit_code (final r) = 0 <-> forallb (resolved env) calls = true)
  /\ (exit_code (final r) = 0 -> List.length calls = 7%nat).
Proof.
  intros Hok r calls. fold plan.
  assert (Hstop : forall pre x post,
             calls = pre ++ x :: post -> resolved env x = false ->
             post = [] /\ forallb (resolved env) pre = true /\ final r = Exited 1).
  { intros pre x post Hex Hx.
    destruct (unresolved_throws env _ _ Hx) as [e He].
    destruct (run_aborts_at server env st pre x post e Hok Hex He) as (Hp & Hall & Hf & _).
    auto. }
  destruct (script_exchanges server env st Hok)
    as [(Hf & Hall & Hm & _)
       | (xs & done & d & rest & res & prints & e & Hxs & Hall & Hr & Hplan & Hm & _ & _ & _ & _ & Hf)];
    fold r in Hf; fold r calls in Hall; fold r calls in Hm || fold r calls in Hxs.
  - (* all seven calls returned *)
    split; [| split; [| split; [| split; [| split]]]].
    + rewrite Hm, <- (length_map fst calls), Hm, firstn_all; reflexivity.
    + unfold calls; rewrite <- requests_exchanges; apply exec_replay.
    + intros pre x post Hex Hx.
      destruct (Hstop pre x post Hex Hx) as (Hp & Hpre & Hfin); rewrite Hfin; auto.
    + intros pre mo res post Hex Hx; exfalso.
      rewrite Hex in Hall; apply all_resolved_no_failure in Hall.
      unfold resolved in Hall; cbn [fst snd variables request_for graphql_request] in Hall.
      congruence.
    + rewrite Hf; cbn [exit_code]; tauto.
    + intros _; rewrite <- (length_map fst calls), Hm, length_map; reflexivity.
  - (* the call for [d] threw *)
    assert (Hlast : resolved env (request_for env d, res) = false) by exact Hr.
    assert (Hnot : forallb (resolved env) calls = false).
    { rewrite Hxs, forallb_app; cbn [forallb]; rewrite Hlast, andb_false_r; reflexivity. }
    split; [| split; [| split; [| split; [| split]]]].
    + rewrite Hxs, map_app, Hm, length_app, <- (length_map fst xs), Hm, length_map.
      cbn [map fst List.length]; rewrite Hplan, map_app; cbn [map].
      change (map (request_for env) done ++ request_for env d :: map (request_for env) rest)
        with (map (request_for env) done ++ [request_for env d] ++ map (request_for env) rest).
      rewrite app_assoc.
      replace (List.length done + 1)%nat
        with (List.length (map (request_for env) done ++ [request_for env d]))
        by (rewrite length_app, length_map; reflexivity).
      now rewrite firstn_length_prefix.
    + unfold calls; rewrite <- requests_exchanges; apply exec_replay.
    + intros pre x post Hex Hx.
      destruct (Hstop pre x post Hex Hx) as (Hp & Hpre & Hfin); rewrite Hfin; auto.
    + intros pre mo res' post Hex Hx req Hin.
      assert (Hx' : resolved env (request_for env (Metaobject mo), res') = false) by exact Hx.
      rewrite Hxs in Hex.
      destruct (unresolved_is_last _ _ _ _ _ _ Hall Hex Hx') as (-> & Heq & ->).
      assert (Hd : Metaobject mo = d)
        by (apply (f_equal (fun x => variables (fst x))) in Heq; exact Heq).
      subst d.
      rewrite requests_exchanges in Hin; fold calls in Hin.
      rewrite Hxs, map_app, Hm in Hin; cbn [map fst] in Hin.
      apply in_app_or in Hin as [Hin | [<- | []]].
      * apply in_map_iff in Hin as (d' & <- & Hd').
        unfold plan in Hplan.
        destruct (metaobjects_first _ _ _ _ _ (eq_sym (eq_sym Hplan)) d' Hd') as [mo' ->].
        exists mo'; reflexivity.
      * exists mo; reflexivity.
    + rewrite Hf, Hnot; cbn [exit_code]; split; discriminate.
    + rewrite Hf; cbn [exit_code]; discriminate.
Qed.

Lemma sequential_short_circuit_witness :
  let answers := [ Sample.created (Sample.spec 0);
                   Sample.invalid (Sample.spec 1);
                   Sample.created (Sample.spec 2) ] in
  let r := exec Sample.scripted (script Sample.env) answers in
  requests (trace r) =
    [request_for Sample.env (Sample.spec 0); request_for Sample.env (Sample.spec 1)]
  /\ exit_code (final r) = 1.
Proof.
  intros answers r.
  split; [vm_compute; reflexivity |].
  refine (proj2 (proj2 (proj1 (proj2 (proj2
    (sequential_short_circuit Sample.scripted Sample.env answers eq_refl)))
    [(request_for Sample.env (Sample.spec 0), Sample.created (Sample.spec 0))]
    (request_for Sample.env (Sample.spec 1), Sample.invalid (Sample.spec 1))
    [] _ _))).
  - vm_compute; reflexivity.
  - vm_compute; reflexivity.
Defined.

(* ================================================================== *)
(** ** What a run prints *)

(** C7: when all seven create calls return, the process exits with code 0
    and the only thing the run prints is the confirmation, once, on the
    log console; a run that exits with code 0 is such a run; a run that
    does not exit with code 0 prints on the error console only: either the
    line about the missing variables, or what the one failing create call
    printed followed by the exception the catch handler prints -- nothing
    about the calls that returned. *)
Theorem full_success_confirmation {backend : Type}
    (server : request -> backend -> fetch_result * backend)
    (env : environment) (st : backend) :
  let r := exec server (script env) st in
  let calls := exchanges (trace r) in
  (List.length calls = 7%nat -> forallb (resolved env) calls = true ->
   exit_code (final r) = 0
   /\ printed (trace r) =
        [(Log, [Text (Str (js "Metaobject and metafield definitions ensured."))])])
  /\ (exit_code (final r) = 0 ->
      printed (trace r) =
        [(Log, [Text (Str (js "Metaobject and metafield definitions ensured."))])]
      /\ List.length calls = 7%nat
      /\ forallb (resolved env) calls = true)
  /\ (exit_code (final r) <> 0 ->
      only_errors (printed (trace r))
      /\ (printed (trace r) =
            [(Err, [Text (Str (js "Missing environment variables: "
                               ++ join (js ", ") (missing_names env)))])]
          \/ exists pre x e,
               calls = pre ++ [x]
               /\ final (settle env (variables (fst x)) (snd x)) = Uncaught e
               /\ printed (trace r) =
                    printed (trace (settle env (variables (fst x)) (snd x)))
                    ++ [(Err, [Caught e])])).
Proof.
  intros r calls.
  destruct (env_ok env) eqn:Hok.
  - destruct (script_exchanges server env st Hok)
      as [(Hf & Hall & Hm & Hp)
         | (xs & done & d & rest & res & prints & e & Hxs & Hall & Hr & Hplan & Hm & Ht
            & Hl & Hu & Hp & Hf)];
      fold r in Hf, Hp; fold r calls in Hall; fold r calls in Hm || fold r calls in Hxs.
    + assert (Hlen : List.length calls = 7%nat)
        by (rewrite <- (length_map fst calls), Hm, length_map; reflexivity).
      rewrite Hf, Hp; cbn [exit_code].
      split; [auto | split; [auto | intros H; now destruct H]].
    + assert (Hnot : forallb (resolved env) calls = false).
      { rewrite Hxs, forallb_app; cbn [forallb].
        change (resolved env (request_for env d, res)) with (resolves env d res).
        rewrite Hr, andb_false_r; reflexivity. }
      rewrite Hf; cbn [exit_code].
      split; [intros _ H; congruence | split; [discriminate | intros _]].
      split.
      * rewrite Hp; apply Forall_app; split; [exact Hl |].
        constructor; [reflexivity | constructor].
      * right; exists xs, (request_for env d, res), e.
        cbn [fst snd variables request_for graphql_request].
        change (graphql_request env (mutation_of d) d) with (request_for env d).
        rewrite Ht; cbn [printed]; auto.
  - unfold calls, r; rewrite (script_run_unset server env st Hok).
    cbn [trace final exit_code exchanges printed missing_report List.length].
    split; [discriminate | split; [discriminate | intros _]].
    split; [| now left].
    constructor; [reflexivity | constructor].
Qed.

Lemma full_success_confirmation_witness :
  let r := exec Sample.always_duplicate (script Sample.env) tt in
  exit_code (final r) = 0
  /\ printed (trace r) =
       [(Log, [Text (Str (js "Metaobject and metafield definitions ensured."))])].
Proof.
  cbv zeta.
  refine (proj1 (full_success_confirmation Sample.always_duplicate Sample.env tt) _ _).
  - vm_compute; reflexivity.
  - vm_compute; reflexivity.
Defined.

(* ================================================================== *)
(** ** Idempotence against a store that keeps its definitions *)

Lemma jsstring_eqb_eq a b : jsstring_eqb a b = true <-> a = b.
Proof.
  unfold jsstring_eqb; destruct (list_eq_dec N.eq_dec a b); split; congruence.
Qed.

Lemma identity_eqb_eq a b : identity_eqb a b = true <-> a = b.
Proof.
  destruct a as [t | o n k], b as [t' | o' n' k']; cbn [identity_eqb];
    try (split; discriminate).
  - rewrite jsstring_eqb_eq; split; congruence.
  - rewrite !andb_true_iff, !jsstring_eqb_eq; split.
    + intros [[-> ->] ->]; reflexivity.
    + intros E; injection E as -> -> ->; auto.
Qed.

Lemma existsb_identity k l : existsb (identity_eqb k) l = true <-> In k l.
Proof.
  rewrite existsb_exists; split.
  - intros (x & Hin & E); apply identity_eqb_eq in E; now subst.
  - intros Hin; exists k; split; [exact Hin | now apply identity_eqb_eq].
Qed.

Lemma user_errors_of_inv d res ue :
  user_errors_of d res = Some ue ->
  exists r top data result,
    res = Resolved r
    /\ ok r = true
    /\ body r = Some (VObj top)
    /\ truthy (lookup (js "errors") top) = false
    /\ lookup (js "data") top = VObj data
    /\ lookup (member_name (result_member d)) data = VObj result
    /\ ue = lookup (js "userErrors") result.
Proof.
  unfold user_errors_of; intros H.
  destruct res as [reason | r]; [discriminate |].
  destruct (ok r) eqn:Hok; [| discriminate].
  destruct (body r) as [[| | | | | | top] |] eqn:Hb; try discriminate.
  destruct (truthy (lookup (js "errors") top)) eqn:He; [discriminate |].
  destruct (lookup (js "data") top) as [| | | | | | data] eqn:Hd; try discriminate.
  destruct (lookup (member_name (result_member d)) data) as [| | | | | | result] eqn:Hr;
    try discriminate.
  injection H as <-.
  exists r, top, data, result; repeat split; auto.
Qed.

(** A create call on a success response without user errors. *)
Lemma settle_no_user_errors env d res top data result :
  ok res = true ->
  body res = Some (VObj top) ->
  truthy (lookup (js "errors") top) = false ->
  lookup (js "data") top = VObj data ->
  lookup (member_name (result_member d)) data = VObj result ->
  lookup (js "userErrors") result = VArr []
  \/ lookup (js "userErrors") result = VNull
  \/ lookup (js "userErrors") result = VUndefined ->
  settle env d (Resolved res) =
  {| trace := [Fetched (request_for env d) (Resolved res)];
     final := Completed tt;
     remote := tt |}.
Proof.
  intros H Hb He Hd Hr Hu; destruct d; settle_unfold_tac;
    cbn [result_member member_name] in Hr;
    rewrite H, Hb; settle_cbn; rewrite He, Hd; settle_cbn; rewrite Hr; settle_cbn;
    destruct Hu as [-> | [-> | ->]]; reflexivity.
Qed.

Lemma is_dupe_error_message re err :
  is_dupe_error re err = true -> exists m, user_error_message err = Some m.
Proof. unfold is_dupe_error; destruct (user_error_message err); eauto; discriminate. Qed.

Lemma dupes_have_messages re errs :
  forallb (is_dupe_error re) errs = true ->
  exists msgs, map user_error_message errs = map Some msgs.
Proof.
  induction errs as [| err errs IH]; cbn [forallb]; intros H.
  - exists []; reflexivity.
  - apply andb_prop in H as [He H].
    destruct (is_dupe_error_message _ _ He) as [m Hm], (IH H) as [msgs Hmsgs].
    exists (m :: msgs); cbn [map]; congruence.
Qed.

Lemma reports_created_settle env d res :
  reports_created d res = true ->
  settle env d res =
  {| trace := [Fetched (request_for env d) res]; final := Completed tt; remote := tt |}.
Proof.
  unfold reports_created; intros H.
  destruct (user_errors_of d res) as [ue |] eqn:U; [| discriminate].
  apply user_errors_of_inv in U
    as (r & top & data & result & -> & Hok & Hb & He & Hd & Hr & ->).
  apply (settle_no_user_errors env d r top data result Hok Hb He Hd Hr).
  destruct (lookup (js "userErrors") result) as [| | | | | [| e es] |];
    try discriminate; auto.
Qed.

Lemma reports_duplicate_settle env d res :
  reports_duplicate d res = true ->
  settle env d res =
  {| trace := [Fetched (request_for env d) res]; final := Completed tt; remote := tt |}.
Proof.
  unfold reports_duplicate; intros H.
  destruct (user_errors_of d res) as [ue |] eqn:U; [| discriminate].
  apply user_errors_of_inv in U
    as (r & top & data & result & -> & Hok & Hb & He & Hd & Hr & ->).
  destruct (lookup (js "userErrors") result) as [| | | | | [| e es] |] eqn:Hu;
    try discriminate.
  destruct (dupes_have_messages _ _ H) as [msgs Hm].
  rewrite (settle_user_errors env d r top data result e es Hok Hb He Hd Hr Hu _
             (filter_elems_messages _ _ _ Hm)).
  apply filter_negb_nil in H; rewrite H; reflexivity.
Qed.

Lemma reports_exclusive d res :
  reports_created d res = true -> reports_duplicate d res = true -> False.
Proof.
  unfold reports_created, reports_duplicate.
  destruct (user_errors_of d res) as [[| | | | | [| e es] |] |]; discriminate.
Qed.

Lemma plan_identities_distinct : NoDup (map identity_of plan).
Proof.
  repeat constructor; cbn [In map plan]; intros H;
    repeat (destruct H as [H | H]; [discriminate H |]); exact H.
Qed.

Section PersistingStore.

(** A store that keeps its definitions: [defined st k] tells whether the
    definition keyed by [k] exists in state [st]. *)
Context {backend : Type}.
Variable server : request -> backend -> fetch_result * backend.
Variable defined : backend -> identity -> bool.
Variable env : environment.

(** Creating a definition that does not exist yet succeeds without user
    errors and adds it, and nothing else. *)
Hypothesis creates :
  forall req st,
    defined st (identity_of (variables req)) = false ->
    reports_created (variables req) (fst (server req st)) = true
    /\ forall k, defined (snd (server req st)) k =
                 identity_eqb k (identity_of (variables req)) || defined st k.

(** Creating a definition that exists is answered with "already exists"
    user errors and changes nothing. *)
Hypothesis refuses :
  forall req st,
    defined st (identity_of (variables req)) = true ->
    reports_duplicate (variables req) (fst (server req st)) = true
    /\ snd (server req st) = st.

Lemma store_loop specs st :
  NoDup (map identity_of specs) ->
  let r := exec server (for_of specs (attempt env)) st in
  final r = Completed tt
  /\ trace r = map fetched (exchanges (trace r))
  /\ map fst (exchanges (trace r)) = map (request_for env) specs
  /\ (forall k, defined (remote r) k =
                defined st k || existsb (identity_eqb k) (map identity_of specs))
  /\ Forall (report_matches defined st) (exchanges (trace r))
  /\ ((forall d, In d specs -> defined st (identity_of d) = true) -> remote r = st).
Proof.
  revert st; induction specs as [| d specs IH]; intros st Hnd; cbv zeta.
  - cbn [for_of exec trace final remote exchanges map existsb].
    repeat split; auto. intros k; now rewrite orb_false_r.
  - cbn [map] in Hnd; apply NoDup_cons_iff in Hnd as [Hnotin Hnd].
    rewrite loop_step.
    pose proof (creates (request_for env d) st) as Hc.
    pose proof (refuses (request_for env d) st) as Hr.
    cbn [variables request_for graphql_request] in Hc, Hr.
    change (graphql_request env (mutation_of d) d) with (request_for env d) in Hc, Hr.
    destruct (server (request_for env d) st) as [res st'] eqn:Es.
    cbn [fst snd] in Hc, Hr.
    destruct (IH st' Hnd) as (Hf & Ht & Hm & Hdef & Hall & Hsame).
    destruct (defined st (identity_of d)) eqn:Hd.
    + (* the definition exists *)
      destruct (Hr eq_refl) as [Hdup ->].
      pose proof (reports_duplicate_settle env d res Hdup) as Hs.
      unfold resolves; rewrite Hs; cbn [final emit trace remote exchanges map fst].
      split; [exact Hf |]; split; [now rewrite <- Ht |]; split; [now rewrite Hm |].
      split; [| split].
      * intros k; rewrite Hdef; cbn [existsb].
        destruct (identity_eqb k (identity_of d)) eqn:Ek; [| reflexivity].
        apply identity_eqb_eq in Ek; subst k; now rewrite Hd.
      * constructor; [| exact Hall].
        unfold report_matches; cbn [fst snd variables request_for graphql_request].
        now rewrite Hd.
      * intros Hdone; apply Hsame; intros d' Hin; apply Hdone; now right.
    + (* the definition is new *)
      destruct (Hc eq_refl) as [Hnew Hst'].
      pose proof (reports_created_settle env d res Hnew) as Hs.
      unfold resolves; rewrite Hs; cbn [final emit trace remote exchanges map fst].
      split; [exact Hf |]; split; [now rewrite <- Ht |]; split; [now rewrite Hm |].
      split; [| split].
      * intros k; rewrite Hdef, Hst'; cbn [existsb].
        destruct (identity_eqb k (identity_of d)), (defined st k); reflexivity.
      * constructor.
        { unfold report_matches; cbn [fst snd variables request_for graphql_request].
          now rewrite Hd. }
        rewrite Forall_forall in Hall |- *; intros x Hx.
        specialize (Hall x Hx); unfold report_matches in Hall |- *.
        rewrite Hst' in Hall.
        destruct (identity_eqb (identity_of (variables (fst x))) (identity_of d)) eqn:Ek;
          [| exact Hall].
        exfalso; apply Hnotin.
        apply identity_eqb_eq in Ek; rewrite <- Ek.
        apply (in_map fst) in Hx; rewrite Hm in Hx.
        apply in_map_iff in Hx as (d' & <- & Hd').
        cbn [variables request_for graphql_request]; now apply in_map.
      * intros Hdone; specialize (Hdone d (or_introl eq_refl)); congruence.
Qed.

(** C8: against a store that keeps its definitions and answers a duplicate
    creation with "already exists" user errors, a first run exits with
    code 0 after the seven calls, each answered "created" when the
    definition was not there and "already exists" when it was; afterwards
    the store holds what it held before plus the seven definitions; a
    second run exits with code 0, every one of its seven calls is answered
    "already exists" and returns, and it leaves the store exactly as the
    first run left it. *)
Theorem provisioning_idempotent (st : backend) :
  env_ok env = true ->
  let r1 := exec server (script env) st in
  let r2 := exec server (script env) (remote r1) in
  exit_code (final r1) = 0
  /\ exit_code (final r2) = 0
  /\ remote r2 = remote r1
  /\ (forall k, defined (remote r1) k =
                defined st k || existsb (identity_eqb k) (map identity_of plan))
  /\ map fst (exchanges (trace r1)) = map (request_for env) plan
  /\ Forall (report_matches defined st) (exchanges (trace r1))
  /\ map fst (exchanges (trace r2)) = map (request_for env) plan
  /\ Forall (fun x => reports_duplicate (variables (fst x)) (snd x) = true
                      /\ resolved env x = true)
            (exchanges (trace r2)).
Proof.
  intros Hok; cbv zeta.
  rewrite !(script_run server env _ Hok); cbv zeta.
  destruct (store_loop plan st plan_identities_distinct)
    as (Hf1 & Ht1 & Hm1 & Hdef1 & Hall1 & _).
  set (r1 := exec server (for_of plan (attempt env)) st) in *.
  rewrite Hf1; cbn [trace final remote exit_code].
  destruct (store_loop plan (remote r1) plan_identities_distinct)
    as (Hf2 & Ht2 & Hm2 & Hdef2 & Hall2 & Hsame2).
  set (r2 := exec server (for_of plan (attempt env)) (remote r1)) in *.
  rewrite Hf2; cbn [trace final remote exit_code].
  assert (Hthere : forall d, In d plan -> defined (remote r1) (identity_of d) = true).
  { intros d Hin; rewrite Hdef1.
    assert (H : existsb (identity_eqb (identity_of d)) (map identity_of plan) = true)
      by (apply existsb_identity; now apply in_map).
    rewrite H; apply orb_true_r. }
  rewrite !exchanges_app; cbn [exchanges]; rewrite !app_nil_r.
  repeat split; auto.
  rewrite Forall_forall in Hall2 |- *; intros x Hx.
  specialize (Hall2 x Hx); unfold report_matches in Hall2.
  assert (Hin : In (variables (fst x)) plan).
  { apply (in_map fst) in Hx; rewrite Hm2 in Hx.
    apply in_map_iff in Hx as (d' & <- & Hd'); exact Hd'. }
  rewrite (Hthere _ Hin) in Hall2; split; [exact Hall2 |].
  unfold resolved, resolves.
  now rewrite (reports_duplicate_settle env _ _ Hall2).
Qed.

End PersistingStore.

Lemma sample_store_creates req defs :
  Sample.has defs (identity_of (variables req)) = false ->
  reports_created (variables req) (fst (Sample.store req defs)) = true
  /\ forall k, Sample.has (snd (Sample.store req defs)) k =
               identity_eqb k (identity_of (variables req)) || Sample.has defs k.
Proof.
  unfold Sample.has, Sample.store; intros H; rewrite H; cbn [fst snd existsb].
  split; [destruct (variables req); vm_compute; reflexivity | reflexivity].
Qed.

Lemma sample_store_refuses req defs :
  Sample.has defs (identity_of (variables req)) = true ->
  reports_duplicate (variables req) (fst (Sample.store req defs)) = true
  /\ snd (Sample.store req defs) = defs.
Proof.
  unfold Sample.has, Sample.store; intros H; rewrite H; cbn [fst snd].
  split; [destruct (variables req); vm_compute; reflexivity | reflexivity].
Qed.

Lemma provisioning_idempotent_witness :
  let r1 := exec Sample.store (script Sample.env) [] in
  let r2 := exec Sample.store (script Sample.env) (remote r1) in
  exit_code (final r1) = 0
  /\ exit_code (final r2) = 0
  /\ remote r2 = remote r1.
Proof.
  cbv zeta.
  destruct (provisioning_idempotent Sample.store Sample.has Sample.env
              sample_store_creates sample_store_refuses [] eq_refl)
    as (H1 & H2 & H3 & _).
  split; [exact H1 | split; [exact H2 | exact H3]].
Defined.

(* ================================================================== *)
(** ** Worked examples *)

Example pattern_ignores_case :
  RegExp.test metaobject_dupe_re (js "Type 'badge' ALREADY Exists.") = true.
Proof. reflexivity. Qed.

Example pattern_needs_the_order :
  RegExp.test metaobject_dupe_re (js "already exists: type") = false.
Proof. reflexivity. Qed.

Example pattern_stops_at_a_line_break :
  RegExp.test metaobject_dupe_re (js "type" ++ [10] ++ js "already exists") = false.
Proof. reflexivity. Qed.

Example metafield_pattern_needs_its_word :
  RegExp.test metafield_dupe_re (js "Type already exists") = false
  /\ RegExp.test metafield_dupe_re (js "Definition already exists for this key") = true.
Proof. split; reflexivity. Qed.

Example status_line :
  transport_error {| status := 503; statusText := js "Service Unavailable"; body := None |}
  = Error (Str (js "GraphQL request failed: 503 Service Unavailable")).
Proof. reflexivity. Qed.

Example fresh_store_run :
  let r := exec Sample.store (script Sample.env) [] in
  List.length (requests (trace r)) = 7%nat
  /\ map snd (exchanges (trace r)) = map Sample.created plan
  /\ remote r = rev (map identity_of plan)
  /\ final r = Completed tt.
Proof. vm_compute; repeat split. Qed.

Example run_stops_at_http_500 :
  let r := exec Sample.scripted (script Sample.env)
             [ Sample.created (Sample.spec 0);
               Resolved {| status := 500; statusText := js "Internal Server Error";
                           body := None |};
               Sample.created (Sample.spec 2) ] in
  List.length (requests (trace r)) = 2%nat
  /\ printed (trace r) =
       [(Err, [Caught (Error (Str (js "GraphQL request failed: 500 Internal Server Error")))])]
  /\ final r = Exited 1.
Proof. vm_compute; repeat split. Qed.

(* ================================================================== *)
(** ** Further properties of the script *)


Lemma settle_rejected env d reason :
  settle env d (Rejected reason) =
  {| trace := [Fetched (request_for env d) (Rejected reason)];
     final := Uncaught (FetchError reason);
     remote := tt |}.
Proof. destruct d; reflexivity. Qed.

Lemma settle_not_json env d res :
  ok res = true ->
  body res = None ->
  settle env d (Resolved res) =
  {| trace := [Fetched (request_for env d) (Resolved res)];
     final := Uncaught SyntaxError;
     remote := tt |}.
Proof.
  intros H Hb; destruct d; settle_unfold_tac; rewrite H, Hb; reflexivity.
Qed.

Lemma silent_failure_ends_run {backend : Type}
    (server : request -> backend -> fetch_result * backend)
    (env : environment) (st : backend) pre req res post e :
  env_ok env = true ->
  exchanges (trace (exec server (script env) st)) = pre ++ (req, res) :: post ->
  settle env (variables req) res =
    {| trace := [Fetched (request_for env (variables req)) res];
       final := Uncaught e;
       remote := tt |} ->
  post = []
  /\ printed (trace (exec server (script env) st)) = [(Err, [Caught e])]
  /\ exit_code (final (exec server (script env) st)) = 1.
Proof.
  intros Hok Hex Hs.
  destruct (run_aborts_at server env st pre (req, res) post e Hok Hex)
    as (Hp & _ & Hf & Hpr).
  { cbn [fst snd]; rewrite Hs; reflexivity. }
  cbn [fst snd] in Hpr; rewrite Hs in Hpr; cbn [trace printed app] in Hpr.
  rewrite Hf; auto.
Qed.

(** *** Network failure *)

(** X1: when [fetch] itself rejects (no response at all), the create call
    ends with the rejection and prints nothing; the script does not retry:
    in a run that exchange is the last one, the catch handler prints the
    rejection and the process exits with code 1. *)
Theorem network_failure_aborts (env : environment) (reason : jsstring) :
  (forall d,
      let s := exec (answered (Rejected reason)) (attempt env d) tt in
      trace s = [Fetched (request_for env d) (Rejected reason)]
      /\ final s = Uncaught (FetchError reason))
  /\ (forall (backend : Type) (server : request -> backend -> fetch_result * backend)
             (st : backend) pre req post,
        env_ok env = true ->
        let r := exec server (script env) st in
        exchanges (trace r) = pre ++ (req, Rejected reason) :: post ->
        post = []
        /\ printed (trace r) = [(Err, [Caught (FetchError reason)])]
        /\ exit_code (final r) = 1).
Proof.
  split.
  - intros d; cbv zeta; fold (settle env d (Rejected reason)).
    rewrite settle_rejected; auto.
  - intros backend server st pre req post Hok r Hex.
    apply (silent_failure_ends_run server env st pre req _ post _ Hok Hex).
    apply settle_rejected.
Qed.

Lemma network_failure_aborts_witness :
  let r := exec Sample.scripted (script Sample.env) [Sample.created (Sample.spec 0)] in
  printed (trace r) = [(Err, [Caught (FetchError (js "ECONNRESET"))])]
  /\ exit_code (final r) = 1.
Proof.
  cbv zeta.
  refine (proj2 (proj2 (network_failure_aborts Sample.env (js "ECONNRESET"))
    (list fetch_result) Sample.scripted [Sample.created (Sample.spec 0)]
    [(request_for Sample.env (Sample.spec 0), Sample.created (Sample.spec 0))]
    (request_for Sample.env (Sample.spec 1)) [] eq_refl _)).
  vm_compute; reflexivity.
Defined.

(** X2: when a response has a success status but its payload is not JSON,
    [res.json()] fails: the create call ends with that error and prints
    nothing, and in a run the exchange is the last one, with exit code 1. *)
Theorem invalid_json_aborts (env : environment) (res : response) :
  ok res = true ->
  body res = None ->
  (forall d,
      let s := exec (answered (Resolved res)) (attempt env d) tt in
      trace s = [Fetched (request_for env d) (Resolved res)]
      /\ final s = Uncaught SyntaxError)
  /\ (forall (backend : Type) (server : request -> backend -> fetch_result * backend)
             (st : backend) pre req post,
        env_ok env = true ->
        let r := exec server (script env) st in
        exchanges (trace r) = pre ++ (req, Resolved res) :: post ->
        post = []
        /\ printed (trace r) = [(Err, [Caught SyntaxError])]
        /\ exit_code (final r) = 1).
Proof.
  intros H Hb; split.
  - intros d; cbv zeta; fold (settle env d (Resolved res)).
    rewrite (settle_not_json env d res H Hb); auto.
  - intros backend server st pre req post Hok r Hex.
    apply (silent_failure_ends_run server env st pre req _ post _ Hok Hex).
    now apply settle_not_json.
Qed.

Lemma invalid_json_aborts_witness :
  let res := {| status := 200; statusText := js "OK"; body := None |} in
  let r := exec Sample.scripted (script Sample.env) [Resolved res] in
  printed (trace r) = [(Err, [Caught SyntaxError])]
  /\ exit_code (final r) = 1.
Proof.
  intros res; cbv zeta.
  refine (proj2 (proj2 (invalid_json_aborts Sample.env res eq_refl eq_refl)
    (list fetch_result) Sample.scripted [Resolved res] []
    (request_for Sample.env (Sample.spec 0)) [] eq_refl _)).
  vm_compute; reflexivity.
Defined.

(** *** Body that is not an object *)

(** X3: a success response whose JSON body is not an object ([null], an
    array, a number, a string, a boolean) ends a create call with a type
    error: on [null] when [data] and [errors] are taken from it, otherwise
    when the mutation result is read from the [data] that is not there. *)
Theorem non_object_body_faults (env : environment) (d : definition)
    (res : response) (b : value) :
  ok res = true ->
  body res = Some b ->
  (forall members, b <> VObj members) ->
  let s := exec (answered (Resolved res)) (attempt env d) tt in
  trace s = [Fetched (request_for env d) (Resolved res)]
  /\ final s =
       Uncaught (TypeError
                   (match b with
                    | VNull | VUndefined => CannotRead b (js "data")
                    | _ => CannotRead VUndefined (member_name (result_member d))
                    end)).
Proof.
  intros H Hb Hno; cbv zeta.
  destruct d; settle_unfold_tac; rewrite H, Hb; settle_cbn;
    destruct b as [| | x | n | s | elems | members];
    try (now destruct (Hno members)); split; reflexivity.
Qed.

Lemma non_object_body_faults_witness :
  let res := {| status := 200; statusText := js "OK"; body := Some (VArr []) |} in
  let s := exec (answered (Resolved res)) (attempt Sample.env (Sample.spec 0)) tt in
  final s = Uncaught (TypeError (CannotRead VUndefined (js "metaobjectDefinitionCreate"))).
Proof.
  intros res; cbv zeta.
  refine (proj2 (non_object_body_faults Sample.env (Sample.spec 0) res (VArr [])
                   eq_refl eq_refl _)).
  intros members; discriminate.
Defined.

(** *** No user errors *)

(** X4: on a success response whose mutation result has no [userErrors], or
    a falsy one, or one whose [length] is falsy (the empty array, but also a
    number or [true]), a create call returns and prints nothing: the
    definition counts as created. *)
Theorem without_user_errors_returns (env : environment) (d : definition)
    (res : response) (top data result : list (jsstring * value)) :
  ok res = true ->
  body res = Some (VObj top) ->
  truthy (lookup (js "errors") top) = false ->
  lookup (js "data") top = VObj data ->
  lookup (member_name (result_member d)) data = VObj result ->
  truthy (lookup (js "userErrors") result) = false
  \/ (exists len, get (lookup (js "userErrors") result) Length = inr len
                  /\ truthy len = false) ->
  let s := exec (answered (Resolved res)) (attempt env d) tt in
  trace s = [Fetched (request_for env d) (Resolved res)]
  /\ final s = Completed tt.
Proof.
  intros H Hb He Hd Hr Hu; cbv zeta.
  destruct d; settle_unfold_tac; cbn [result_member member_name] in Hr;
    rewrite H, Hb; settle_cbn; rewrite He, Hd; settle_cbn; rewrite Hr; settle_cbn;
    (destruct (truthy (lookup (js "userErrors") result)) eqn:T;
     [ destruct Hu as [Hu | (len & Hl & Hf)]; [discriminate |];
       unfold read; rewrite Hl; settle_cbn; rewrite Hf; split; reflexivity
     | settle_cbn; rewrite T; split; reflexivity ]).
Qed.

Lemma without_user_errors_returns_witness :
  let result := [ (js "metaobjectDefinition", VObj [(js "id", VStr (js "gid://1"))]);
                  (js "userErrors", VArr []) ] in
  let data := [ (js "metaobjectDefinitionCreate", VObj result) ] in
  let top := [ (js "data", VObj data) ] in
  let res := {| status := 200; statusText := js "OK"; body := Some (VObj top) |} in
  final (exec (answered (Resolved res)) (attempt Sample.env (Sample.spec 0)) tt)
  = Completed tt.
Proof.
  intros result data top res.
  refine (proj2 (without_user_errors_returns Sample.env (Sample.spec 0) res top data result
                   eq_refl eq_refl eq_refl eq_refl eq_refl _)).
  right; exists (VNum 0); split; reflexivity.
Defined.

(** *** A userErrors value that is not an array *)

(** X5: a truthy [userErrors] with a truthy [length] that is not an array (a
    non-empty string, an object with a [length] member) ends a create call
    with a type error, [filter] not being a function, and prints nothing. *)
Theorem user_errors_not_an_array_faults (env : environment) (d : definition)
    (res : response) (top data result : list (jsstring * value)) (len : value) :
  ok res = true ->
  body res = Some (VObj top) ->
  truthy (lookup (js "errors") top) = false ->
  lookup (js "data") top = VObj data ->
  lookup (member_name (result_member d)) data = VObj result ->
  truthy (lookup (js "userErrors") result) = true ->
  get (lookup (js "userErrors") result) Length = inr len ->
  truthy len = true ->
  (forall elems, lookup (js "userErrors") result <> VArr elems) ->
  let s := exec (answered (Resolved res)) (attempt env d) tt in
  trace s = [Fetched (request_for env d) (Resolved res)]
  /\ final s =
       Uncaught (TypeError (NotAFunction (lookup (js "userErrors") result) (js "filter"))).
Proof.
  intros H Hb He Hd Hr Ht Hl Hlen Hna; cbv zeta.
  destruct d; settle_unfold_tac; cbn [result_member member_name] in Hr;
    rewrite H, Hb; settle_cbn; rewrite He, Hd; settle_cbn; rewrite Hr; settle_cbn;
    rewrite Ht; unfold read; rewrite Hl; settle_cbn; rewrite Hlen;
    (destruct (lookup (js "userErrors") result) as [| | x | n | s | elems | members];
     try discriminate; try (now destruct (Hna elems)); split; reflexivity).
Qed.

Lemma user_errors_not_an_array_faults_witness :
  let ue := VObj [ (js "length", VNum 1);
                   (js "0", Sample.user_error "type" "Type already exists") ] in
  let result := [ (js "userErrors", ue) ] in
  let data := [ (js "metafieldDefinitionCreate", VObj result) ] in
  let top := [ (js "data", VObj data) ] in
  let res := {| status := 200; statusText := js "OK"; body := Some (VObj top) |} in
  final (exec (answered (Resolved res)) (attempt Sample.env (Sample.spec 4)) tt)
  = Uncaught (TypeError (NotAFunction ue (js "filter"))).
Proof.
  intros ue result data top res.
  refine (proj2 (user_errors_not_an_array_faults Sample.env (Sample.spec 4) res top data
                   result (VNum 1) eq_refl eq_refl eq_refl eq_refl eq_refl eq_refl
                   eq_refl eq_refl _)).
  intros elems; discriminate.
Defined.

(** *** Truthiness of errors *)

(** X6: a create call tests the top-level [errors] for truthiness, not for
    presence: on an otherwise successful response without user errors it
    throws the serialized [errors] exactly when [errors] is truthy, and
    returns when [errors] is [null], [false], 0 or the empty string. *)
Theorem errors_truthiness_decides (env : environment) (d : definition)
    (res : response) (top data result : list (jsstring * value)) :
  ok res = true ->
  body res = Some (VObj top) ->
  lookup (js "data") top = VObj data ->
  lookup (member_name (result_member d)) data = VObj result ->
  lookup (js "userErrors") result = VArr [] ->
  let s := exec (answered (Resolved res)) (attempt env d) tt in
  trace s = [Fetched (request_for env d) (Resolved res)]
  /\ final s =
       if truthy (lookup (js "errors") top)
       then Uncaught (Error (Stringify (lookup (js "errors") top) 0))
       else Completed tt.
Proof.
  intros H Hb Hd Hr Hu; cbv zeta; fold (settle env d (Resolved res)).
  destruct (truthy (lookup (js "errors") top)) eqn:He.
  - rewrite (settle_query_errors env d res top H Hb He); auto.
  - rewrite (settle_no_user_errors env d res top data result H Hb He Hd Hr
               (or_introl Hu)); auto.
Qed.

Lemma errors_truthiness_decides_witness :
  let result := [ (js "userErrors", VArr []) ] in
  let data := [ (js "metaobjectDefinitionCreate", VObj result) ] in
  let top := [ (js "errors", VNull); (js "data", VObj data) ] in
  let res := {| status := 200; statusText := js "OK"; body := Some (VObj top) |} in
  final (exec (answered (Resolved res)) (attempt Sample.env (Sample.spec 0)) tt)
  = Completed tt.
Proof.
  intros result data top res.
  exact (proj2 (errors_truthiness_decides Sample.env (Sample.spec 0) res top data result
                  eq_refl eq_refl eq_refl eq_refl eq_refl)).
Defined.

(** *** Null among the user errors *)




(** *** User error without a message *)

Lemma filter_elems_lax re errs :
  forallb lax_user_error errs = true ->
  filter_elems (not_dupe re) errs = inr (filter (kept_by re) errs).
Proof.
  induction errs as [| err errs IH]; cbn [forallb]; intros Hall; [reflexivity |].
  apply andb_prop in Hall as [Herr Hall].
  cbn [filter_elems filter]; rewrite (IH Hall).
  unfold kept_by.
  destruct err as [| | x | n | s | elems | members]; try discriminate.
  unfold not_dupe; cbn [get]; reflexivity.
Qed.

Lemma unreadable_message_kept d members :
  lookup (js "message") members = VUndefined
  \/ lookup (js "message") members = VNull ->
  kept_by (dupe_re d) (VObj members) = true.
Proof.
  intros Hm; unfold kept_by, not_dupe; cbn [get member_name].
  destruct d, Hm as [-> | ->]; vm_compute; reflexivity.
Qed.

(** X8: a user error without a [message] (or with a [null] one) is never
    taken for a duplicate: it is among the errors the create call prints,
    and the call throws its "creation failed" error. *)
Theorem missing_message_is_not_suppressed (env : environment) (d : definition)
    (res : response) (top data result : list (jsstring * value))
    (errs : list value) (members : list (jsstring * value)) :
  ok res = true ->
  body res = Some (VObj top) ->
  truthy (lookup (js "errors") top) = false ->
  lookup (js "data") top = VObj data ->
  lookup (member_name (result_member d)) data = VObj result ->
  lookup (js "userErrors") result = VArr errs ->
  forallb lax_user_error errs = true ->
  In (VObj members) errs ->
  lookup (js "message") members = VUndefined
  \/ lookup (js "message") members = VNull ->
  let s := exec (answered (Resolved res)) (attempt env d) tt in
  let kept := filter (kept_by (dupe_re d)) errs in
  In (VObj members) kept
  /\ trace s = [ Fetched (request_for env d) (Resolved res);
                 Printed Err [ Text (Str (report_heading d));
                               Text (Stringify (VArr kept) 2) ] ]
  /\ final s = Uncaught (creation_failed d).
Proof.
  intros H Hb He Hd Hr Hu Hall Hin Hm; cbv zeta.
  fold (settle env d (Resolved res)).
  assert (Hk : In (VObj members) (filter (kept_by (dupe_re d)) errs)).
  { apply filter_In; split; [exact Hin | now apply unreadable_message_kept]. }
  split; [exact Hk |].
  destruct errs as [| err errs']; [destruct Hin |].
  rewrite (settle_user_errors env d res top data result err errs'
             H Hb He Hd Hr Hu _ (filter_elems_lax _ _ Hall)).
  destruct (filter (kept_by (dupe_re d)) (err :: errs')) as [| k ks];
    [destruct Hk | split; reflexivity].
Qed.

Lemma missing_message_is_not_suppressed_witness :
  let bare := [ (js "field", VArr [VStr (js "type")]) ] in
  let errs := [ Sample.user_error "type" "Type already exists"; VObj bare ] in
  let result := [ (js "userErrors", VArr errs) ] in
  let data := [ (js "metaobjectDefinitionCreate", VObj result) ] in
  let top := [ (js "data", VObj data) ] in
  let res := {| status := 200; statusText := js "OK"; body := Some (VObj top) |} in
  let s := exec (answered (Resolved res)) (attempt Sample.env (Sample.spec 0)) tt in
  final s = Uncaught (Error (Str (js "Metaobject creation failed"))).
Proof.
  intros bare errs result data top res; cbv zeta.
  exact (proj2 (proj2
    (missing_message_is_not_suppressed Sample.env (Sample.spec 0) res top data result
       errs bare eq_refl eq_refl eq_refl eq_refl eq_refl eq_refl eq_refl
       (or_intror (or_introl eq_refl)) (or_introl eq_refl)))).
Defined.

(** *** What a create call can print *)

Lemma reporting_bind d {A B} (p : prog A) (f : A -> prog B) :
  reporting d p -> (forall a, reporting d (f a)) -> reporting d (bind p f).
Proof.
  destruct p as [a | e | code | lvl args k | req k]; cbn [bind reporting];
    intros H Hf; try contradiction; auto.
  destruct lvl; [contradiction |].
  destruct k; try contradiction; exact H.
Qed.

Lemma reporting_read d v m : reporting d (read v m).
Proof. unfold read; destruct (get v m); exact I. Qed.

Lemma reporting_filter_method d v keep : reporting d (filter_method v keep).
Proof.
  destruct v; cbn [filter_method]; try exact I.
  destruct (filter_elems keep elems); exact I.
Qed.

Ltac reporting_step :=
  match goal with
  | |- reporting _ (bind (read _ _) _) =>
      apply reporting_bind; [apply reporting_read | intro]
  | |- reporting _ (bind (filter_method _ _) _) =>
      apply reporting_bind; [apply reporting_filter_method | intros [| ? ?]]
  | |- reporting _ (bind _ _) => apply reporting_bind; [| intro]
  | |- reporting _ (if negb (Nat.eqb (List.length []) 0) then _ else _) =>
      exact I
  | |- reporting _ (if negb (Nat.eqb (List.length (_ :: _)) 0) then _ else _) =>
      cbn [List.length Nat.eqb negb bind console_error reporting report_heading
           creation_failed]; split; [reflexivity | eauto]
  | |- reporting _ (if ?b then _ else _) => destruct b
  | |- reporting _ (match ?x with _ => _ end) => destruct x
  | |- reporting _ (read _ _) => apply reporting_read
  | |- reporting _ _ => exact I
  end.

Lemma reporting_continuation env d res :
  reporting d (continuation (attempt env d) res).
Proof.
  destruct d;
    cbn [continuation attempt createMetaobject createMetafield shopifyGraphQL bind];
    repeat reporting_step.
Qed.

Lemma reporting_run {A} d (p : prog A) :
  reporting d p ->
  let s := exec (answered (Rejected [])) p tt in
  (printed (trace s) = [] /\ exchanges (trace s) = [])
  \/ (exists k ks,
         trace s = [Printed Err [ Text (Str (report_heading d));
                                  Text (Stringify (VArr (k :: ks)) 2) ]]
         /\ final s = Uncaught (creation_failed d)).
Proof.
  destruct p as [a | e | code | lvl args k | req k]; cbn [reporting];
    intros H; try contradiction; try (left; split; reflexivity).
  destruct lvl; [contradiction |].
  destruct k; try contradiction.
  destruct H as (-> & k & ks & ->).
  right; exists k, ks; split; reflexivity.
Qed.

(** X9: whatever the answer, a create call prints nothing, or prints exactly
    one line on the error console -- its heading and a non-empty JSON list
    -- and then throws its "creation failed" error; no other failure of a
    call prints anything in the call. *)
Theorem create_call_output (env : environment) (d : definition) (res : fetch_result) :
  let s := exec (answered res) (attempt env d) tt in
  printed (trace s) = []
  \/ (exists k ks,
         printed (trace s) =
           [(Err, [ Text (Str (report_heading d));
                    Text (Stringify (VArr (k :: ks)) 2) ])]
         /\ final s = Uncaught (creation_failed d)).
Proof.
  cbv zeta; fold (settle env d res); rewrite settle_unfold.
  pose proof (tidy_continuation env d res) as T.
  pose proof (reporting_continuation env d res) as R.
  set (p := continuation (attempt env d) res) in *.
  destruct (tidy_run p (answered res) (answered (Rejected [])) tt tt T)
    as (Ht & Hf & _).
  cbn [emit trace final printed]; rewrite Ht, Hf.
  destruct (reporting_run d p R) as [[Hp _] | (k & ks & Htr & Hfin)].
  - left; exact Hp.
  - right; exists k, ks; rewrite Htr, Hfin; split; reflexivity.
Qed.

(** *** A run prints at most two lines *)

Lemma settle_prints env d res :
  (List.length (printed (trace (settle env d res))) <= 1)%nat.
Proof.
  rewrite settle_unfold.
  pose proof (tidy_continuation env d res) as T.
  pose proof (reporting_continuation env d res) as R.
  set (p := continuation (attempt env d) res) in *.
  destruct (tidy_run p (answered res) (answered (Rejected [])) tt tt T)
    as (Ht & _).
  cbn [emit trace printed]; rewrite Ht.
  destruct (reporting_run d p R) as [[Hp _] | (k & ks & Htr & _)].
  - rewrite Hp; cbn; lia.
  - rewrite Htr; cbn; lia.
Qed.

(** X10: every run prints at least one line and at most two, and exactly one
    when it exits with code 0. *)
Theorem run_prints_at_most_two_lines {backend : Type}
    (server : request -> backend -> fetch_result * backend)
    (env : environment) (st : backend) :
  let r := exec server (script env) st in
  (1 <= List.length (printed (trace r)) <= 2)%nat
  /\ (exit_code (final r) = 0 -> List.length (printed (trace r)) = 1%nat).
Proof.
  cbv zeta.
  destruct (env_ok env) eqn:Hok.
  - destruct (script_exchanges server env st Hok)
      as [(Hf & _ & _ & Hp)
         | (xs & done & d & rest & res & prints & e & _ & _ & _ & _ & _ & Ht
            & _ & _ & Hp & Hf)].
    + rewrite Hp; cbn [List.length]; split; [lia | reflexivity].
    + pose proof (settle_prints env d res) as Hl.
      rewrite Ht in Hl; cbn [printed] in Hl.
      rewrite Hp, length_app, Hf; cbn [List.length exit_code].
      split; [lia | discriminate].
  - rewrite (script_run_unset server env st Hok).
    cbn [trace final exit_code printed missing_report List.length].
    split; [lia | discriminate].
Qed.

(** *** How a run can end *)

(** X11: no exception escapes the module body: every run either completes
    (exit code 0) or ends in [process.exit(1)], whatever the environment and
    whatever the endpoint answers. *)
Theorem run_ends_handled {backend : Type}
    (server : request -> backend -> fetch_result * backend)
    (env : environment) (st : backend) :
  let r := exec server (script env) st in
  final r = Completed tt \/ final r = Exited 1.
Proof.
  cbv zeta.
  destruct (env_ok env) eqn:Hok.
  - destruct (script_exchanges server env st Hok)
      as [(Hf & _) | (xs & done & d & rest & res & prints & e & H)].
    + now left.
    + right; apply H.
  - rewrite (script_run_unset server env st Hok); now right.
Qed.

(** *** No definition is sent twice *)

(** X12: no run sends two requests for the same definition (same metaobject
    type, or same owner type, namespace and key): nothing is retried. *)
Theorem no_definition_sent_twice {backend : Type}
    (server : request -> backend -> fetch_result * backend)
    (env : environment) (st : backend) :
  let r := exec server (script env) st in
  NoDup (map (fun req => identity_of (variables req)) (requests (trace r))).
Proof.
  cbv zeta.
  assert (Hv : forall l,
             map (fun req => identity_of (variables req)) (map (request_for env) l)
             = map identity_of l).
  { induction l as [| d l IH]; cbn [map]; [reflexivity | now rewrite IH]. }
  destruct (env_ok env) eqn:Hok.
  - rewrite requests_exchanges.
    destruct (script_exchanges server env st Hok)
      as [(_ & _ & Hm & _)
         | (xs & done & d & rest & res & prints & e & Hxs & _ & _ & Hplan & Hm & _)].
    + rewrite Hm, Hv; exact plan_identities_distinct.
    + rewrite Hxs, map_app, Hm; cbn [map fst].
      change [request_for env d] with (map (request_for env) [d]).
      rewrite <- map_app, Hv.
      pose proof plan_identities_distinct as Hnd.
      rewrite Hplan in Hnd.
      replace (done ++ d :: rest) with ((done ++ [d]) ++ rest) in Hnd
        by (rewrite <- app_assoc; reflexivity).
      rewrite map_app in Hnd; exact (NoDup_app_remove_r _ _ Hnd).
  - rewrite (script_run_unset server env st Hok); cbn [trace requests map].
    constructor.
Qed.

(** *** What a request looks like *)

(** X13: every request a run sends is a POST to
    [https://<store>.myshopify.com/admin/api/<version>/graphql.json] with
    the JSON content type and the access token header, where store, token
    and version are the non-empty values of the environment (never the text
    "undefined"); it carries a definition of the catalog and the mutation of
    its kind. *)
Theorem requests_are_well_formed {backend : Type}
    (server : request -> backend -> fetch_result * backend)
    (env : environment) (st : backend) (req : request) :
  In req (requests (trace (exec server (script env) st))) ->
  exists store token version,
    SHOPIFY_STORE env = Some store /\ store <> []
    /\ SHOPIFY_ADMIN_ACCESS_TOKEN env = Some token /\ token <> []
    /\ SHOPIFY_API_VERSION env = Some version /\ version <> []
    /\ url req = endpoint store version
    /\ method req = js "POST"
    /\ headers req = [ (js "Content-Type", Some (js "application/json"));
                       (js "X-Shopify-Access-Token", Some token) ]
    /\ In (variables req) plan
    /\ query req = match variables req with
                   | Metaobject _ => metaobject_mutation
                   | Metafield _ => metafield_mutation
                   end.
Proof.
  intros Hin.
  destruct (env_ok env) eqn:Hok.
  2: { rewrite (script_run_unset server env st Hok) in Hin; destruct Hin. }
  assert (Hreq : exists d, In d plan /\ req = request_for env d).
  { rewrite requests_exchanges in Hin.
    destruct (script_exchanges server env st Hok)
      as [(_ & _ & Hm & _)
         | (xs & done & d & rest & res & prints & e & Hxs & _ & _ & Hplan & Hm & _)].
    - rewrite Hm in Hin; apply in_map_iff in Hin as (d & <- & Hd); eauto.
    - rewrite Hxs, map_app, Hm in Hin; cbn [map fst] in Hin.
      apply in_app_or in Hin as [Hin | [<- | []]].
      + apply in_map_iff in Hin as (d' & <- & Hd'); exists d'; split; [| reflexivity].
        rewrite Hplan; apply in_or_app; now left.
      + exists d; split; [| reflexivity].
        rewrite Hplan; apply in_or_app; right; now left. }
  destruct Hreq as (d & Hd & ->).
  unfold env_ok in Hok.
  apply andb_prop in Hok as [Hok H3]; apply andb_prop in Hok as [H1 H2].
  destruct env as [[[| c1 s1] |] [[| c2 s2] |] [[| c3 s3] |]]; try discriminate.
  exists (c1 :: s1), (c2 :: s2), (c3 :: s3).
  cbn [SHOPIFY_STORE SHOPIFY_ADMIN_ACCESS_TOKEN SHOPIFY_API_VERSION].
  repeat split; try discriminate; auto.
Qed.

Lemma requests_are_well_formed_witness :
  let r := exec Sample.always_duplicate (script Sample.env) tt in
  exists req, In req (requests (trace r))
              /\ url req = js "https://getqflex.myshopify.com/admin/api/2024-07/graphql.json".
Proof.
  cbv zeta.
  assert (Hin : In (request_for Sample.env (Sample.spec 0))
                  (requests (trace (exec Sample.always_duplicate (script Sample.env) tt))))
    by (vm_compute; left; reflexivity).
  exists (request_for Sample.env (Sample.spec 0)); split; [exact Hin |].
  destruct (requests_are_well_formed Sample.always_duplicate Sample.env tt _ Hin)
    as (store & token & version & Hs & _ & _ & _ & Hv & _ & Hu & _).
  reflexivity.
Defined.

(** *** A request is sent iff the environment is complete *)

(** X14: a run sends no request exactly when one of the three variables is
    unset or empty; with all three present the first request is always
    sent. *)
Theorem request_sent_iff_env_complete {backend : Type}
    (server : request -> backend -> fetch_result * backend)
    (env : environment) (st : backend) :
  let r := exec server (script env) st in
  requests (trace r) = [] <-> env_ok env = false.
Proof.
  cbv zeta; split.
  - intros Hnil; destruct (env_ok env) eqn:Hok; [exfalso | reflexivity].
    rewrite requests_exchanges in Hnil.
    destruct (script_exchanges server env st Hok)
      as [(_ & _ & Hm & _)
         | (xs & done & d & rest & res & prints & e & Hxs & _)].
    + rewrite Hm in Hnil; discriminate Hnil.
    + rewrite Hxs, map_app in Hnil; apply app_eq_nil in Hnil as [_ Hnil].
      discriminate Hnil.
  - intros Hok; now rewrite (script_run_unset server env st Hok).
Qed.

(** *** Patterns and letter case *)

Lemma canonicalize_idempotent c :
  RegExp.canonicalize (RegExp.canonicalize c) = RegExp.canonicalize c.
Proof.
  unfold RegExp.canonicalize.
  destruct ((97 <=? c) && (c <=? 122)) eqn:E; [| now rewrite E].
  apply andb_prop in E as [E1 E2]; apply N.leb_le in E1, E2.
  destruct ((97 <=? c - 32) && (c - 32 <=? 122)) eqn:E'; [| reflexivity].
  apply andb_prop in E' as [E3 _]; apply N.leb_le in E3; lia.
Qed.

Lemma line_terminator_canonicalize c :
  RegExp.is_line_terminator (RegExp.canonicalize c) = RegExp.is_line_terminator c.
Proof.
  unfold RegExp.canonicalize, RegExp.is_line_terminator.
  destruct ((97 <=? c) && (c <=? 122)) eqn:E; [| reflexivity].
  apply andb_prop in E as [E1 E2]; apply N.leb_le in E1, E2.
  repeat match goal with
         | |- context [?x =? ?y] =>
             let H := fresh in
             destruct (x =? y) eqn:H; [apply N.eqb_eq in H; lia |]
         end.
  reflexivity.
Qed.

Lemma atom_matches_canonicalize a c :
  RegExp.atom_matches a (RegExp.canonicalize c) = RegExp.atom_matches a c.
Proof.
  destruct a; cbn [RegExp.atom_matches].
  - now rewrite canonicalize_idempotent.
  - now rewrite line_terminator_canonicalize.
Qed.

Lemma match_here_canonicalize r s :
  RegExp.match_here r (map RegExp.canonicalize s) = RegExp.match_here r s.
Proof.
  revert s; induction r as [| [a | a] r IH]; intros s.
  - reflexivity.
  - destruct s as [| c s]; cbn [map RegExp.match_here]; [reflexivity |].
    now rewrite atom_matches_canonicalize, IH.
  - induction s as [| c s IHs]; [reflexivity |].
    cbn [map].
    rewrite (match_here_many a r (RegExp.canonicalize c :: map RegExp.canonicalize s)),
            (match_here_many a r (c :: s)).
    rewrite atom_matches_canonicalize, IHs.
    change (RegExp.canonicalize c :: map RegExp.canonicalize s)
      with (map RegExp.canonicalize (c :: s)).
    now rewrite (IH (c :: s)).
Qed.

Lemma test_canonicalize r s :
  RegExp.test r (map RegExp.canonicalize s) = RegExp.test r s.
Proof.
  induction s as [| c s IH]; [reflexivity |].
  cbn [map RegExp.test]; rewrite IH.
  change (RegExp.canonicalize c :: map RegExp.canonicalize s)
    with (map RegExp.canonicalize (c :: s)).
  now rewrite (match_here_canonicalize r (c :: s)).
Qed.

(** X15: two messages that differ only in the case of their letters get the
    same verdict from the pattern of either kind. *)
Theorem pattern_ignores_letter_case (d : definition) (s t : jsstring) :
  RegExp.same_letters s t ->
  RegExp.test (dupe_re d) s = RegExp.test (dupe_re d) t.
Proof.
  unfold RegExp.same_letters; intros H.
  rewrite <- (test_canonicalize (dupe_re d) s), <- (test_canonicalize (dupe_re d) t).
  now rewrite H.
Qed.

Lemma pattern_ignores_letter_case_witness :
  RegExp.test metafield_dupe_re (js "DEFINITION ALREADY EXISTS")
  = RegExp.test metafield_dupe_re (js "definition already exists").
Proof.
  apply (pattern_ignores_letter_case (Sample.spec 4)); reflexivity.
Defined.

(** *** Patterns and surrounding text *)

Lemma match_here_extend r s post :
  RegExp.match_here r s = true -> RegExp.match_here r (s ++ post) = true.
Proof.
  revert s; induction r as [| [a | a] r IH]; intros s.
  - reflexivity.
  - destruct s as [| c s]; cbn [app RegExp.match_here]; [discriminate |].
    intros H; apply andb_prop in H as [Ha H]; now rewrite Ha, IH.
  - induction s as [| c s IHs].
    + rewrite (match_here_many a r []), (match_here_many a r ([] ++ post)),
        !orb_true_iff.
      intros [H | H]; [| discriminate]. left; now apply (IH []).
    + cbn [app].
      rewrite (match_here_many a r (c :: s)), (match_here_many a r (c :: s ++ post)),
        !orb_true_iff.
      intros [H | H]; [left; now apply (IH (c :: s)) |].
      apply andb_prop in H as [Ha H]; right.
      now rewrite Ha, IHs.
Qed.

(** X16: a message that matches the pattern of either kind still matches with
    any text put before and after it: the patterns are not anchored. *)
Theorem pattern_survives_context (d : definition) (pre s post : jsstring) :
  RegExp.test (dupe_re d) s = true ->
  RegExp.test (dupe_re d) (pre ++ s ++ post) = true.
Proof.
  rewrite !test_search; intros (p & s' & -> & H).
  exists (pre ++ p), (s' ++ post); split.
  - now rewrite <- !app_assoc.
  - now apply match_here_extend.
Qed.

Lemma pattern_survives_context_witness :
  RegExp.test metaobject_dupe_re
    (js "Validation failed: " ++ js "Type already exists" ++ js " (code TAKEN)") = true.
Proof.
  apply (pattern_survives_context (Sample.spec 0)); reflexivity.
Defined.

(** *** What the patterns match *)

(** X17: the pattern of a kind matches a message exactly when the message
    contains the word of the kind ("type" for metaobjects, "definition" for
    metafields), then any characters other than line terminators, then
    "already exists", letters compared without regard to case. *)
Theorem dupe_re_meaning (d : definition) (s : jsstring) :
  RegExp.test (dupe_re d) s = true <->
  exists pre word gap tail post,
    s = pre ++ word ++ gap ++ tail ++ post
    /\ RegExp.same_letters word
         (match d with
          | Metaobject _ => js "type"
          | Metafield _ => js "definition"
          end)
    /\ RegExp.no_line_break gap
    /\ RegExp.same_letters tail (js "already exists").
Proof.
  destruct d; cbn [dupe_re]; unfold metaobject_dupe_re, metafield_dupe_re;
    apply dupe_pattern_meaning.
Qed.

(** *** Data or result that is not an object *)

(** X18: on a success response without (truthy) [errors] whose [data] is not
    an object, a create call ends with a type error: on [null] or a missing
    [data] when the mutation result is read, otherwise when [userErrors] is
    read from the result that is not there. *)
Theorem non_object_data_faults (env : environment) (d : definition)
    (res : response) (top : list (jsstring * value)) :
  ok res = true ->
  body res = Some (VObj top) ->
  truthy (lookup (js "errors") top) = false ->
  (forall members, lookup (js "data") top <> VObj members) ->
  let s := exec (answered (Resolved res)) (attempt env d) tt in
  trace s = [Fetched (request_for env d) (Resolved res)]
  /\ final s =
       Uncaught (TypeError
                   (match lookup (js "data") top with
                    | VNull | VUndefined =>
                        CannotRead (lookup (js "data") top)
                          (member_name (result_member d))
                    | _ => CannotRead VUndefined (js "userErrors")
                    end)).
Proof.
  intros H Hb He Hno; cbv zeta.
  destruct d; settle_unfold_tac; rewrite H, Hb; settle_cbn; rewrite He;
    destruct (lookup (js "data") top) as [| | x | n | s | elems | members];
    try (now destruct (Hno members)); split; reflexivity.
Qed.

Lemma non_object_data_faults_witness :
  let top := [ (js "data", VNull) ] in
  let res := {| status := 200; statusText := js "OK"; body := Some (VObj top) |} in
  let s := exec (answered (Resolved res)) (attempt Sample.env (Sample.spec 0)) tt in
  final s = Uncaught (TypeError (CannotRead VNull (js "metaobjectDefinitionCreate"))).
Proof.
  intros top res; cbv zeta.
  refine (proj2 (non_object_data_faults Sample.env (Sample.spec 0) res top
                   eq_refl eq_refl eq_refl _)).
  intros members; discriminate.
Defined.

(** X19: when the mutation result under [data] is not an object, a create
    call ends with a type error if it is [null] or missing, and otherwise (a
    boolean, a number, a string, an array) returns as if the definition had
    been created, since such a value has no [userErrors]. *)
Theorem non_object_result_is_accepted (env : environment) (d : definition)
    (res : response) (top data : list (jsstring * value)) :
  ok res = true ->
  body res = Some (VObj top) ->
  truthy (lookup (js "errors") top) = false ->
  lookup (js "data") top = VObj data ->
  (forall members, lookup (member_name (result_member d)) data <> VObj members) ->
  let s := exec (answered (Resolved res)) (attempt env d) tt in
  trace s = [Fetched (request_for env d) (Resolved res)]
  /\ final s =
       match lookup (member_name (result_member d)) data with
       | VNull | VUndefined =>
           Uncaught (TypeError
                       (CannotRead (lookup (member_name (result_member d)) data)
                          (js "userErrors")))
       | _ => Completed tt
       end.
Proof.
  intros H Hb He Hd Hno; cbv zeta.
  destruct d; settle_unfold_tac; cbn [result_member member_name] in Hno |- *;
    rewrite H, Hb; settle_cbn; rewrite He, Hd; settle_cbn;
    match goal with
    | |- context [lookup ?k data] =>
        destruct (lookup k data) as [| | x | n | s | elems | members]
    end;
    try (now destruct (Hno members)); split; reflexivity.
Qed.

Lemma non_object_result_is_accepted_witness :
  let data := [ (js "metaobjectDefinitionCreate", VBool true) ] in
  let top := [ (js "data", VObj data) ] in
  let res := {| status := 200; statusText := js "OK"; body := Some (VObj top) |} in
  let s := exec (answered (Resolved res)) (attempt Sample.env (Sample.spec 0)) tt in
  final s = Completed tt.
Proof.
  intros data top res; cbv zeta.
  refine (proj2 (non_object_result_is_accepted Sample.env (Sample.spec 0) res top data
                   eq_refl eq_refl eq_refl eq_refl _)).
  intros members; discriminate.
Defined.
